(** * Screen recording service: a shallow embedding and its properties

    This development embeds [ScreenRecordingService] (the Angular service of
    the screen capture widget) and the part of [App] that derives the status
    text, and states the behaviour of the service as theorems.

    Conventions.
    - A JavaScript [number] that holds an integer is a [Z]; every number the
      service handles (epoch milliseconds, second counts) is a safe integer,
      where JavaScript arithmetic is exact.  What is stated of
      [formatDuration], which takes any number, is stated for safe
      integers.  [Math.floor (a / b)] for a
      positive [b] is [Z.div] (floor division) and [a % b] is [Z.rem]
      (the sign follows the dividend).
    - A JavaScript string is a [string]; template literals are
      concatenations.
    - The host (browser) owns the interval timers, the media tracks, the
      console and the download sink.  They are fields of [World], next to
      the private fields and signals of the service. *)

From Stdlib Require Import ZArith Lia List Bool Ascii String.
From stdpp Require Import base gmap.
Import ListNotations.

Local Open Scope Z_scope.

(** ** JavaScript strings and numbers *)

Module Js.

(** [Number.MAX_SAFE_INTEGER].  Up to it every integer is a double, and
    sums, differences, remainders and the floor of a quotient by 1000, 3600
    or 60 are computed on doubles without rounding. *)
Definition MAX_SAFE_INTEGER : Z := 2 ^ 53 - 1.

Notation "s +++ t" := (String.append s t)
  (at level 60, right associativity) : Z_scope.

(** One decimal digit as a character. *)
Definition digit_char (d : Z) : ascii :=
  ascii_of_nat (48 + Z.to_nat d).
Arguments digit_char : simpl never.

(** Digits of a non-negative integer, most significant first, pushed in
    front of [acc].  [fuel] bounds the number of digits. *)
Fixpoint digits_fuel (fuel : nat) (n : Z) (acc : string) : string :=
  match fuel with
  | O => acc
  | S f =>
      let acc' := String (digit_char (n mod 10)) acc in
      if n <? 10 then acc' else digits_fuel f (n / 10) acc'
  end.

Definition nat_digits (n : Z) : string :=
  digits_fuel (S (Z.to_nat (Z.log2 n))) n EmptyString.

(** [Number.prototype.toString ()] on an integer, radix 10. *)
Definition toString (n : Z) : string :=
  if n <? 0 then String "-"%char (nat_digits (- n)) else nat_digits n.

(** The first [n] characters of the endless repetition of [pad], having
    already consumed it down to [rest]. *)
Fixpoint cycle (n : nat) (rest pad : string) : string :=
  match n with
  | O => EmptyString
  | S k =>
      match rest with
      | String c r => String c (cycle k r pad)
      | EmptyString =>
          match pad with
          | EmptyString => EmptyString
          | String c r => String c (cycle k r pad)
          end
      end
  end.

(** [String.prototype.padStart (targetLength, padString)]. *)
Definition padStart (targetLength : nat) (padString : string) (s : string)
  : string :=
  if (targetLength <=? String.length s)%nat then s
  else cycle (targetLength - String.length s) padString padString +++ s.

(** [String.prototype.slice (0, n)]. *)
Fixpoint slice0 (n : nat) (s : string) : string :=
  match n, s with
  | S k, String c r => String c (slice0 k r)
  | _, _ => EmptyString
  end.

(** [String.prototype.replace (/:/g, '-')]. *)
Fixpoint replace_colons (s : string) : string :=
  match s with
  | EmptyString => EmptyString
  | String c r =>
      String (if Ascii.eqb c ":"%char then "-"%char else c) (replace_colons r)
  end.

End Js.

Import Js.

(** ** [formatDuration]

    The function as it computes on integers [seconds] with
    [- MAX_SAFE_INTEGER <= seconds <= MAX_SAFE_INTEGER].  There the three
    fields are computed on doubles without rounding (the quotient by 3600
    is below 2^42, so its rounding error is below 1/3600 and the floor is
    the exact one) and [toString] prints plain decimals (every field is
    below 10^21).  Beyond that range the program rounds and prints
    exponents; the properties of [formatDuration] below are stated inside
    it. *)

Definition formatDuration (seconds : Z) : string :=
  let hours := seconds / 3600 in
  let minutes := Z.rem seconds 3600 / 60 in
  let secs := Z.rem seconds 60 in
  if 0 <? hours then
    padStart 2 "0" (toString hours) +++ ":" +++
    padStart 2 "0" (toString minutes) +++ ":" +++
    padStart 2 "0" (toString secs)
  else
    padStart 2 "0" (toString minutes) +++ ":" +++
    padStart 2 "0" (toString secs).


(** ** Data of the platform and of the service *)

(** [MediaStreamTrack.readyState]. *)
Inductive TrackState := live | ended.

(** A [MediaStream]: the identities of its video and of its audio tracks.
    The tracks themselves live in the host ([tracks] of [Host]). *)
Record MediaStream := {
  videoTracks : list nat;
  audioTracks : list nat
}.

Definition getTracks (st : MediaStream) : list nat :=
  videoTracks st ++ audioTracks st.

(** [MediaRecorder.state]. *)
Inductive RecordingState := inactive | recording | paused.

Record MediaRecorder := {
  rec_stream : MediaStream;
  state : RecordingState
}.

(** A [Blob]: its bytes and its media type; [size] is the byte count. *)
Record Blob := {
  blob_bytes : list Byte.byte;
  blob_type : string
}.

#[export] Instance blob_size : Size Blob := fun b => List.length (blob_bytes b).

(** [new Blob (parts, { type })]: the parts in order, end to end. *)
Definition newBlob (parts : list Blob) (type : string) : Blob :=
  {| blob_bytes := List.concat (List.map blob_bytes parts); blob_type := type |}.

(** What the click on the temporary anchor hands to the browser: the blob
    behind the object URL and the [download] attribute. *)
Record Download := {
  href : Blob;
  download : string
}.

Inductive LogEntry :=
| console_error (msg : string)
| console_warn (msg : string).

(** The UTC fields of a [Date], as [toISOString] prints them ([month] is the
    calendar month, 1 to 12). *)
Record JsDate := {
  year : Z; month : Z; day : Z;
  hour : Z; minute : Z; second : Z; millisecond : Z
}.

Definition pad (width : nat) (n : Z) : string := padStart width "0" (toString n).

(** [Date.prototype.toISOString ()]: four year digits from year 0 to 9999, a
    sign and six digits outside. *)
Definition toISOString (d : JsDate) : string :=
  (if (0 <=? year d) && (year d <=? 9999) then pad 4 (year d)
   else (if year d <? 0 then "-" else "+") +++ pad 6 (Z.abs (year d)))
  +++ "-" +++ pad 2 (month d) +++ "-" +++ pad 2 (day d)
  +++ "T" +++ pad 2 (hour d) +++ ":" +++ pad 2 (minute d)
  +++ ":" +++ pad 2 (second d) +++ "." +++ pad 3 (millisecond d) +++ "Z".

(** The private fields and the four signals of [ScreenRecordingService]. *)
Record Service := mkService {
  mediaRecorder : option MediaRecorder;
  recordedChunks : list Blob;
  stream : option MediaStream;
  startTime : Z;
  pausedTime : Z;
  durationTimer : option nat;
  _isRecording : bool;
  _isPaused : bool;
  _duration : Z;
  _error : option string
}.

(** The browser side: the intervals that are set and not cleared, the next
    interval id (ids are positive), the state of every track handed out,
    the console and the downloads offered. *)
Record Host := mkHost {
  timers : gset nat;
  next_timer : nat;
  tracks : gmap nat TrackState;
  console : list LogEntry;
  downloads : list Download
}.

Record World := mkWorld {
  svc : Service;
  host : Host
}.

(** [recordingState], the computed signal. *)
Record RecordingStateView := {
  view_isRecording : bool;
  view_isPaused : bool;
  view_duration : Z;
  view_error : option string
}.

Definition recordingState (w : World) : RecordingStateView :=
  {| view_isRecording := _isRecording (svc w);
     view_isPaused := _isPaused (svc w);
     view_duration := _duration (svc w);
     view_error := _error (svc w) |}.

Definition initial_service : Service :=
  mkService None [] None 0 0 None false false 0 None.

Definition initial_host : Host := mkHost ∅ 1 ∅ [] [].

Definition initial : World := mkWorld initial_service initial_host.

(** Field assignments. *)
Module Set_.
Definition on_svc (f : Service -> Service) (w : World) : World :=
  mkWorld (f (svc w)) (host w).
Definition on_host (f : Host -> Host) (w : World) : World :=
  mkWorld (svc w) (f (host w)).

Definition mediaRecorder v := on_svc (fun '(mkService _ b c d e f g h i j) =>
  mkService v b c d e f g h i j).
Definition recordedChunks v := on_svc (fun '(mkService a _ c d e f g h i j) =>
  mkService a v c d e f g h i j).
Definition stream v := on_svc (fun '(mkService a b _ d e f g h i j) =>
  mkService a b v d e f g h i j).
Definition startTime v := on_svc (fun '(mkService a b c _ e f g h i j) =>
  mkService a b c v e f g h i j).
Definition pausedTime v := on_svc (fun '(mkService a b c d _ f g h i j) =>
  mkService a b c d v f g h i j).
Definition durationTimer v := on_svc (fun '(mkService a b c d e _ g h i j) =>
  mkService a b c d e v g h i j).
Definition _isRecording v := on_svc (fun '(mkService a b c d e f _ h i j) =>
  mkService a b c d e f v h i j).
Definition _isPaused v := on_svc (fun '(mkService a b c d e f g _ i j) =>
  mkService a b c d e f g v i j).
Definition _duration v := on_svc (fun '(mkService a b c d e f g h _ j) =>
  mkService a b c d e f g h v j).
Definition _error v := on_svc (fun '(mkService a b c d e f g h i _) =>
  mkService a b c d e f g h i v).

Definition timers v := on_host (fun '(mkHost _ b c d e) => mkHost v b c d e).
Definition next_timer v := on_host (fun '(mkHost a _ c d e) => mkHost a v c d e).
Definition tracks v := on_host (fun '(mkHost a b _ d e) => mkHost a b v d e).
Definition console v := on_host (fun '(mkHost a b c _ e) => mkHost a b c v e).
Definition downloads v := on_host (fun '(mkHost a b c d _) => mkHost a b c d v).
End Set_.

(** ** Methods run in a state monad with exceptions

    A method body is a computation over the [World] that completes normally
    with a value or throws; what it wrote before throwing stays written. *)

Inductive Completion (A : Type) :=
| Normal (a : A)
| Throw.
Arguments Normal {A} a.
Arguments Throw {A}.

Definition M (A : Type) : Type := World -> Completion A * World.

Definition ret {A} (a : A) : M A := fun w => (Normal a, w).

Definition bind {A B} (m : M A) (k : A -> M B) : M B :=
  fun w => match m w with
           | (Normal a, w') => k a w'
           | (Throw, w') => (Throw, w')
           end.

Definition throw {A} : M A := fun w => (Throw, w).

Definition tryCatch (body handler : M unit) : M unit :=
  fun w => match body w with
           | (Normal _, w') => (Normal tt, w')
           | (Throw, w') => handler w'
           end.

Definition gets {A} (f : World -> A) : M A := fun w => (Normal (f w), w).

Definition modify (f : World -> World) : M unit := fun w => (Normal tt, f w).

Definition exec (m : M unit) (w : World) : World := snd (m w).

Declare Scope js_scope.
Delimit Scope js_scope with js.
Bind Scope js_scope with M.
Notation "x <- c1 ;; c2" := (bind c1 (fun x => c2))
  (at level 100, c1 at next level, right associativity) : js_scope.
Notation "c1 ;; c2" := (bind c1 (fun _ => c2))
  (at level 100, right associativity) : js_scope.
Local Open Scope js_scope.

Fixpoint forEach {A} (f : A -> M unit) (l : list A) : M unit :=
  match l with
  | [] => ret tt
  | x :: l' => f x ;; forEach f l'
  end.

(** ** The platform calls the service makes *)

(** How the platform answers one [startRecording] call. *)
Inductive Acquisition :=
| Rejected
| Granted (st : MediaStream).

Record StartEnv := {
  acquisition : Acquisition;      (* getDisplayMedia rejects or resolves *)
  constructor_throws : bool;      (* new MediaRecorder throws, e.g. NotSupportedError *)
  start_throws : bool;            (* mediaRecorder.start throws *)
  start_now : Z                   (* Date.now () at line 63 *)
}.

(** [await navigator.mediaDevices.getDisplayMedia (...)]: the tracks of the
    stream it resolves with are live. *)
Definition getDisplayMedia (env : StartEnv) : M MediaStream :=
  match acquisition env with
  | Rejected => throw
  | Granted st =>
      modify (fun w =>
        Set_.tracks (foldr (fun t m => <[t := live]> m) (tracks (host w)) (getTracks st)) w) ;;
      ret st
  end.

(** [new MediaRecorder (stream, { mimeType })]. *)
Definition newMediaRecorder (env : StartEnv) (st : MediaStream) : M MediaRecorder :=
  if constructor_throws env then throw
  else ret {| rec_stream := st; state := inactive |}.

Definition set_state (s : RecordingState) (r : MediaRecorder) : MediaRecorder :=
  {| rec_stream := rec_stream r; state := s |}.

(** [this.mediaRecorder.start (1000)]: an InvalidStateError unless the
    recorder is inactive. *)
Definition recorder_start (env : StartEnv) : M unit :=
  r <- gets (fun w => mediaRecorder (svc w)) ;;
  match r with
  | None => throw
  | Some r =>
      if start_throws env then throw
      else match state r with
           | inactive => modify (Set_.mediaRecorder (Some (set_state recording r)))
           | _ => throw
           end
  end.

(** [pause ()], [resume ()], [stop ()] of a [MediaRecorder]: the first two
    throw an InvalidStateError on an inactive recorder, [stop] returns. *)
Definition recorder_pause (r : MediaRecorder) : M unit :=
  match state r with
  | inactive => throw
  | _ => modify (Set_.mediaRecorder (Some (set_state paused r)))
  end.

Definition recorder_resume (r : MediaRecorder) : M unit :=
  match state r with
  | inactive => throw
  | _ => modify (Set_.mediaRecorder (Some (set_state recording r)))
  end.

Definition recorder_stop (r : MediaRecorder) : M unit :=
  modify (Set_.mediaRecorder (Some (set_state inactive r))).

(** [setInterval]: a fresh positive id, now active. *)
Definition setInterval : M nat :=
  t <- gets (fun w => next_timer (host w)) ;;
  modify (fun w => Set_.timers ({[t]} ∪ timers (host w)) w) ;;
  modify (Set_.next_timer (S t)) ;;
  ret t.

Definition clearInterval (t : nat) : M unit :=
  modify (fun w => Set_.timers (timers (host w) ∖ {[t]}) w).

(** [track.stop ()]. *)
Definition track_stop (t : nat) : M unit :=
  modify (fun w => Set_.tracks (<[t := ended]> (tracks (host w))) w).

Definition log (e : LogEntry) : M unit :=
  modify (fun w => Set_.console (console (host w) ++ [e]) w).

(** The click on the anchor that carries the object URL. *)
Definition click (d : Download) : M unit :=
  modify (fun w => Set_.downloads (downloads (host w) ++ [d]) w).

(** ** The methods of [ScreenRecordingService] *)

Definition denial_message : string :=
  "Fehler beim Starten der Aufnahme. Bitte stellen Sie sicher, dass Sie die Berechtigung erteilt haben.".

(** A timer handle is truthy when it is there and not zero. *)
Definition truthy_timer (d : option nat) : option nat :=
  match d with
  | Some O => None
  | other => other
  end.

Definition startDurationTimer : M unit :=
  t <- setInterval ;;
  modify (Set_.durationTimer (Some t)).

Definition stopDurationTimer : M unit :=
  d <- gets (fun w => durationTimer (svc w)) ;;
  match truthy_timer d with
  | Some t =>
      clearInterval t ;;
      modify (Set_.durationTimer None)
  | None => ret tt
  end.

(** The callback [startDurationTimer] hands to [setInterval]. *)
Definition duration_callback (now : Z) : M unit :=
  modify (fun w => Set_._duration ((now - startTime (svc w)) / 1000) w).

(** The handler of [ondataavailable]. *)
Definition ondataavailable (data : Blob) : M unit :=
  if (0 <? size data)%nat then
    modify (fun w => Set_.recordedChunks (recordedChunks (svc w) ++ [data]) w)
  else ret tt.

(** The [try] block of [startRecording]. *)
Definition startRecording_try (env : StartEnv) : M unit :=
  st <- getDisplayMedia env ;;
  modify (Set_.stream (Some st)) ;;
  r <- newMediaRecorder env st ;;
  modify (Set_.mediaRecorder (Some r)) ;;
  modify (Set_.recordedChunks []) ;;
  modify (Set_.startTime (start_now env)) ;;
  modify (Set_.pausedTime 0) ;;
  (* ondataavailable and onstop are set on the recorder here *)
  s <- gets (fun w => stream (svc w)) ;;
  match s with
  | None => throw
  | Some s =>
      match videoTracks s with
      | [] => throw             (* [getVideoTracks ()[0]] is undefined *)
      | _ :: _ => ret tt        (* its onended is set here *)
      end
  end ;;
  recorder_start env ;;
  modify (Set_._isRecording true) ;;
  modify (Set_._isPaused false) ;;
  modify (Set_._duration 0) ;;
  modify (Set_._error None) ;;
  startDurationTimer.

(** The [catch] block of [startRecording]. *)
Definition startRecording_catch : M unit :=
  log (console_error "Error starting recording:") ;;
  modify (Set_._isRecording false) ;;
  modify (Set_._isPaused false) ;;
  modify (Set_._duration 0) ;;
  modify (Set_._error (Some denial_message)).

Definition startRecording (env : StartEnv) : M unit :=
  tryCatch (startRecording_try env) startRecording_catch.

Definition pauseRecording (now : Z) : M unit :=
  r <- gets (fun w => mediaRecorder (svc w)) ;;
  match r with
  | Some r =>
      match state r with
      | recording =>
          recorder_pause r ;;
          modify (Set_.pausedTime now) ;;
          stopDurationTimer ;;
          modify (Set_._isPaused true)
      | _ => ret tt
      end
  | None => ret tt
  end.

Definition resumeRecording (now : Z) : M unit :=
  r <- gets (fun w => mediaRecorder (svc w)) ;;
  match r with
  | Some r =>
      match state r with
      | paused =>
          recorder_resume r ;;
          modify (fun w =>
            Set_.startTime (startTime (svc w) + (now - pausedTime (svc w))) w) ;;
          startDurationTimer ;;
          modify (Set_._isPaused false)
      | _ => ret tt
      end
  | None => ret tt
  end.

Definition stopRecording : M unit :=
  r <- gets (fun w => mediaRecorder (svc w)) ;;
  match r with
  | Some r =>
      match state r with
      | inactive => ret tt
      | _ =>
          recorder_stop r ;;
          stopDurationTimer
      end
  | None => ret tt
  end.

Definition file_name (d : JsDate) : string :=
  "screen-recording-" +++ replace_colons (slice0 19 (toISOString d)) +++ ".webm".

Definition downloadRecording (d : JsDate) : M unit :=
  chunks <- gets (fun w => recordedChunks (svc w)) ;;
  if (List.length chunks =? 0)%nat then
    log (console_warn "No recorded data available")
  else
    click {| href := newBlob chunks "video/webm"; download := file_name d |}.

Definition cleanup : M unit :=
  s <- gets (fun w => stream (svc w)) ;;
  match s with
  | Some st =>
      forEach track_stop (getTracks st) ;;
      modify (Set_.stream None)
  | None => ret tt
  end ;;
  modify (Set_.mediaRecorder None) ;;
  modify (Set_.recordedChunks []) ;;
  stopDurationTimer ;;
  modify (Set_._isRecording false) ;;
  modify (Set_._isPaused false) ;;
  modify (Set_._duration 0) ;;
  modify (Set_._error None).

(** The handler of [onstop]. *)
Definition onstop (d : JsDate) : M unit :=
  downloadRecording d ;;
  cleanup.

(** The handler of [onended] of the first video track. *)
Definition onended : M unit := stopRecording.

(** ** The component [App] *)

Inductive Status := Idle | Recording | Paused.

(** [statusText], by the state it names: ready, paused, running. *)
Definition status (w : World) : Status :=
  if negb (_isRecording (svc w)) then Idle
  else if _isPaused (svc w) then Paused
  else Recording.

Definition togglePause (now : Z) : M unit :=
  p <- gets (fun w => _isPaused (svc w)) ;;
  if p then resumeRecording now else pauseRecording now.

(** ** Events

    Everything that runs code of the service: the three commands (a
    [startRecording] call takes effect when its [await] resumes, no field is
    written before), and the callbacks the platform invokes. *)

Inductive Event :=
| EvStart (env : StartEnv)
| EvPause (now : Z)
| EvResume (now : Z)
| EvTogglePause (now : Z)
| EvStop
| EvTick (t : nat) (now : Z)       (* interval [t] fires *)
| EvData (data : Blob)             (* dataavailable *)
| EvRecorderStop (d : JsDate)      (* stop, at wall-clock time [d] *)
| EvTrackEnded.                    (* ended, on the video track *)

(** A cleared interval does not fire. *)
Definition handler (e : Event) : M unit :=
  match e with
  | EvStart env => startRecording env
  | EvPause now => pauseRecording now
  | EvResume now => resumeRecording now
  | EvTogglePause now => togglePause now
  | EvStop => stopRecording
  | EvTick t now =>
      active <- gets (fun w => bool_decide (t ∈ timers (host w))) ;;
      if active then duration_callback now else ret tt
  | EvData data => ondataavailable data
  | EvRecorderStop d => onstop d
  | EvTrackEnded => onended
  end.

Definition handle (e : Event) (w : World) : World := exec (handler e) w.

Definition run (es : list Event) (w : World) : World :=
  fold_left (fun w e => handle e w) es w.

(** A call that returns without an uncaught exception. *)
Definition returns (m : M unit) (w : World) : Prop := fst (m w) = Normal tt.

(** ** Reading the strings back

    What the specification says of the strings the service builds is stated
    with these definitions, which do not use the printing functions. *)

(** A field of exactly two decimal digits. *)
Definition two_digits (n : Z) : string :=
  String (digit_char (n / 10)) (String (digit_char (n mod 10)) EmptyString).

(** A year of exactly four decimal digits. *)
Definition four_digits (n : Z) : string :=
  String (digit_char (n / 1000)) (String (digit_char (n / 100 mod 10))
    (two_digits (n mod 100))).

Definition digit_of (c : ascii) : option Z :=
  let k := nat_of_ascii c in
  if ((48 <=? k) && (k <=? 57))%nat then Some (Z.of_nat k - 48) else None.

(** The number a string of decimal digits denotes, read left to right
    after [v]. *)
Fixpoint numeral_from (v : Z) (s : string) : option Z :=
  match s with
  | EmptyString => Some v
  | String c r =>
      match digit_of c with
      | Some d => numeral_from (10 * v + d) r
      | None => None
      end
  end.

Definition numeral_value (s : string) : option Z :=
  match s with
  | EmptyString => None
  | _ => numeral_from 0 s
  end.

(** The time stamp of a file name: [YYYY-MM-DDTHH-MM-SS]. *)
Definition stamp (d : JsDate) : string :=
  four_digits (year d) +++ "-" +++ two_digits (month d) +++ "-" +++
  two_digits (day d) +++ "T" +++ two_digits (hour d) +++ "-" +++
  two_digits (minute d) +++ "-" +++ two_digits (second d).

(** A date [toISOString] prints with a four digit year. *)
Definition four_digit_date (d : JsDate) : Prop :=
  0 <= year d <= 9999 /\ 1 <= month d <= 12 /\ 1 <= day d <= 31 /\
  0 <= hour d <= 23 /\ 0 <= minute d <= 59 /\ 0 <= second d <= 59 /\
  0 <= millisecond d <= 999.

(** ** States and traces the properties speak of *)

Definition recorder_state (w : World) : option RecordingState :=
  option_map state (mediaRecorder (svc w)).

(** A recorder is held and it is recording or paused. *)
Definition recorder_active (w : World) : bool :=
  match recorder_state w with
  | Some recording | Some paused => true
  | _ => false
  end.

(** The [try] block of a [startRecording] call runs to its end. *)
Definition start_succeeds (env : StartEnv) (w : World) : bool :=
  match fst (startRecording_try env w) with
  | Normal _ => true
  | Throw => false
  end.

(** The published fields at their defaults, but for [error]. *)
Definition idle_defaults (w : World) : Prop :=
  _isRecording (svc w) = false /\ _isPaused (svc w) = false /\
  _duration (svc w) = 0.

Definition idle_view : RecordingStateView :=
  {| view_isRecording := false; view_isPaused := false;
     view_duration := 0; view_error := None |}.

(** The intervals the service still has a handle on. *)
Definition timer_set (d : option nat) : gset nat :=
  match d with
  | Some t => {[t]}
  | None => ∅
  end.

(** [gated g es w]: every event of [es], run from [w], meets the gate [g]
    in the state it arrives in. *)
Fixpoint gated (g : World -> Event -> bool) (es : list Event) (w : World) : bool :=
  match es with
  | [] => true
  | e :: es' => g w e && gated g es' (handle e w)
  end.

(** No [startRecording] call succeeds while the service holds the handle of
    a ticker. *)
Definition start_without_ticker (w : World) (e : Event) : bool :=
  match e with
  | EvStart env =>
      negb (start_succeeds env w) ||
      match durationTimer (svc w) with None => true | Some _ => false end
  | _ => true
  end.

(** No [startRecording] call fails while the recorder held is recording or
    paused. *)
Definition no_failure_while_active (w : World) (e : Event) : bool :=
  match e with
  | EvStart env => start_succeeds env w || negb (recorder_active w)
  | _ => true
  end.

(** The segments a trace delivers, in order of delivery. *)
Definition segments (es : list Event) : list Blob :=
  flat_map (fun e => match e with EvData b => [b] | _ => [] end) es.

(** A segment of non-zero size. *)
Definition nonempty (b : Blob) : bool := (0 <? size b)%nat.

(** Events that empty or replace the chunk buffer: a start and the
    completion of a stop. *)
Definition resets_chunks (e : Event) : bool :=
  match e with
  | EvStart _ | EvRecorderStop _ => true
  | _ => false
  end.

(** *** Invariants *)

(** Interval ids are positive, so a handle the service holds is truthy. *)
Definition timer_ids_ok (w : World) : Prop :=
  next_timer (host w) <> 0%nat /\
  forall t, durationTimer (svc w) = Some t -> t <> 0%nat.

(** The active intervals are exactly the one the service has a handle on,
    and there is none while the recorder is paused. *)
Definition ticker_inv (w : World) : Prop :=
  timer_ids_ok w /\
  timers (host w) = timer_set (durationTimer (svc w)) /\
  (recorder_state w = Some paused -> durationTimer (svc w) = None).

(** The published flags follow the recorder. *)
Definition flag_inv (w : World) : Prop :=
  (recorder_active w = true -> _isRecording (svc w) = true) /\
  (_isPaused (svc w) = true -> _isRecording (svc w) = true).

(** [stop_all l m]: the tracks of [l] stopped in the track table [m]. *)
Definition stop_all (l : list nat) (m : gmap nat TrackState) : gmap nat TrackState :=
  fold_left (fun m t => <[t := ended]> m) l m.

(** *** The session as the specification describes it

    The state machine of the specification with the time it accounts for:
    [banked] is the time of the Recording intervals that are over, [since]
    the start of the current one.  [Finalizing] is the time between
    [stop ()] and the completion event. *)

Inductive Phase := PIdle | PRecording | PPaused | PFinalizing.

Record Session := {
  phase : Phase;
  since : Z;
  banked : Z
}.

Definition idle_session : Session := {| phase := PIdle; since := 0; banked := 0 |}.

(** Wall-clock time spent in Recording up to [now], pauses left out. *)
Definition recorded_ms (a : Session) (now : Z) : Z := banked a + (now - since a).

(** One valid transition of the table, [None] for a call the table does not
    have in this phase.  Ticks and data segments are no transitions. *)
Definition session_step (e : Event) (w : World) (a : Session) : option Session :=
  match e, phase a with
  | EvStart env, PIdle =>
      if start_succeeds env w
      then Some {| phase := PRecording; since := start_now env; banked := 0 |}
      else Some a
  | EvPause now, PRecording | EvTogglePause now, PRecording =>
      Some {| phase := PPaused; since := since a; banked := recorded_ms a now |}
  | EvResume now, PPaused | EvTogglePause now, PPaused =>
      Some {| phase := PRecording; since := now; banked := banked a |}
  | EvStop, PRecording | EvStop, PPaused
  | EvTrackEnded, PRecording | EvTrackEnded, PPaused =>
      Some {| phase := PFinalizing; since := since a; banked := banked a |}
  | EvRecorderStop _, PFinalizing => Some idle_session
  | EvTick _ _, _ | EvData _, _ => Some a
  | _, _ => None
  end.

Fixpoint session_run (es : list Event) (w : World) (a : Session) : option Session :=
  match es with
  | [] => Some a
  | e :: es' =>
      match session_step e w a with
      | Some a' => session_run es' (handle e w) a'
      | None => None
      end
  end.

(** What a state of the service has in common with a session of the
    specification in each phase.  The start time of the service is the
    start of the current Recording interval moved back by the time
    banked. *)
Definition session_sim (w : World) (a : Session) : Prop :=
  timer_ids_ok w /\
  match phase a with
  | PIdle | PFinalizing =>
      recorder_active w = false /\
      durationTimer (svc w) = None /\ timers (host w) = ∅
  | PRecording =>
      recorder_state w = Some recording /\
      _isPaused (svc w) = false /\
      (exists t, durationTimer (svc w) = Some t /\ timers (host w) = {[t]}) /\
      startTime (svc w) + banked a = since a
  | PPaused =>
      recorder_state w = Some paused /\
      _isPaused (svc w) = true /\
      durationTimer (svc w) = None /\ timers (host w) = ∅ /\
      startTime (svc w) + banked a = pausedTime (svc w)
  end.

(** *** Sample values *)

Definition sample_stream : MediaStream :=
  {| videoTracks := [1%nat]; audioTracks := [2%nat] |}.

Definition granted (now : Z) : StartEnv :=
  {| acquisition := Granted sample_stream; constructor_throws := false;
     start_throws := false; start_now := now |}.

(** A later grant hands out a new stream with new tracks. *)
Definition second_stream : MediaStream :=
  {| videoTracks := [3%nat]; audioTracks := [4%nat] |}.

Definition regranted (now : Z) : StartEnv :=
  {| acquisition := Granted second_stream; constructor_throws := false;
     start_throws := false; start_now := now |}.

Definition denied : StartEnv :=
  {| acquisition := Rejected; constructor_throws := false;
     start_throws := false; start_now := 0 |}.

(** The stream is granted and the recorder cannot be built (a browser
    without the VP9 WebM encoder). *)
Definition unsupported : StartEnv :=
  {| acquisition := Granted sample_stream; constructor_throws := true;
     start_throws := false; start_now := 0 |}.

Definition segment (b : Byte.byte) : Blob :=
  {| blob_bytes := [b]; blob_type := "video/webm" |}.

Definition sample_date : JsDate :=
  {| year := 2026; month := 11; day := 2;
     hour := 9; minute := 5; second := 7; millisecond := 42 |}.

(** *** Traces, for the further properties *)

(** The streams a trace is granted. *)
Definition granted_tracks (es : list Event) : list nat :=
  flat_map (fun e => match e with
                     | EvStart env =>
                         match acquisition env with
                         | Granted st => getTracks st
                         | Rejected => []
                         end
                     | _ => []
                     end) es.

(** The tracks of the stream the service holds. *)
Definition held_tracks (w : World) : list nat :=
  match stream (svc w) with
  | Some st => getTracks st
  | None => []
  end.

(** Every [startRecording] call takes effect, that is its [await]
    resumes, in a state where [isRecording] is false.  The condition is on
    that moment and not on the moment of the call: of two calls made while
    Idle the second takes effect after the first and can fail it. *)
Definition start_only_idle (w : World) (e : Event) : bool :=
  match e with
  | EvStart _ => negb (_isRecording (svc w))
  | _ => true
  end.

(** The published flags and the ticker, by the state of the recorder
    held. *)
Definition status_inv (w : World) : Prop :=
  timer_ids_ok w /\
  timers (host w) = timer_set (durationTimer (svc w)) /\
  match recorder_state w with
  | Some recording =>
      _isRecording (svc w) = true /\ _isPaused (svc w) = false /\
      durationTimer (svc w) <> None
  | Some paused =>
      _isRecording (svc w) = true /\ _isPaused (svc w) = true /\
      durationTimer (svc w) = None
  | _ =>
      durationTimer (svc w) = None /\
      (_isPaused (svc w) = true -> _isRecording (svc w) = true)
  end.

(** The reading of [Date.now ()] an event carries. *)
Definition event_time (e : Event) : option Z :=
  match e with
  | EvStart env => Some (start_now env)
  | EvPause now | EvResume now | EvTogglePause now | EvTick _ now => Some now
  | _ => None
  end.

(** The clock does not go back: every reading is at least the one before,
    beginning at [last]. *)
Fixpoint clock_monotone (last : Z) (es : list Event) : bool :=
  match es with
  | [] => true
  | e :: es' =>
      match event_time e with
      | Some now => (last <=? now) && clock_monotone now es'
      | None => clock_monotone last es'
      end
  end.

(** The last reading of a trace. *)
Fixpoint clock_after (last : Z) (es : list Event) : Z :=
  match es with
  | [] => last
  | e :: es' =>
      clock_after (match event_time e with Some now => now | None => last end) es'
  end.

(** The published duration is not ahead of the time base: while a ticker
    runs it is at most the whole seconds from [startTime] to the last
    reading, while paused at most those from [startTime] to
    [pausedTime]. *)
Definition clock_inv (last : Z) (w : World) : Prop :=
  0 <= _duration (svc w) /\
  (durationTimer (svc w) <> None ->
     startTime (svc w) <= last /\
     1000 * _duration (svc w) <= last - startTime (svc w)) /\
  (recorder_state w = Some paused ->
     startTime (svc w) <= pausedTime (svc w) <= last /\
     1000 * _duration (svc w) <= pausedTime (svc w) - startTime (svc w)) /\
  (recorder_state w = Some recording -> durationTimer (svc w) <> None).

(** What the service has buffered and what it has offered so far: every
    buffered chunk has bytes, every file offered is a WebM blob with bytes
    under a name made by [file_name]. *)
Definition export_inv (w : World) : Prop :=
  List.Forall (fun b => nonempty b = true) (recordedChunks (svc w)) /\
  List.Forall
    (fun f => blob_type (href f) = "video/webm"%string /\
              (0 < size (href f))%nat /\
              exists d, download f = file_name d)
    (downloads (host w)).

(** *** Reading a formatted duration back *)

(** The numbers between the colons of a string, each read as by
    [numeral_from]. *)
Fixpoint read_fields (v : Z) (s : string) : option (list Z) :=
  match s with
  | EmptyString => Some [v]
  | String c r =>
      if Ascii.eqb c ":"%char then option_map (cons v) (read_fields 0 r)
      else match digit_of c with
           | Some d => read_fields (10 * v + d) r
           | None => None
           end
  end.

(** The second count a string of the form [MM:SS] or [HH:MM:SS] stands
    for. *)
Definition parseDuration (s : string) : option Z :=
  match read_fields 0 s with
  | Some [m; c] => Some (60 * m + c)
  | Some [h; m; c] => Some (3600 * h + 60 * m + c)
  | _ => None
  end.

(** * Properties *)

(** ** Printing numbers *)

Lemma forall_below (P : Z -> bool) (k : nat) :
  forallb P (List.map Z.of_nat (seq 0 k)) = true ->
  forall n, 0 <= n < Z.of_nat k -> P n = true.
Proof.
  intros H n Hn. rewrite forallb_forall in H. apply H.
  apply in_map_iff. exists (Z.to_nat n). split; [lia|].
  apply in_seq. lia.
Qed.

Lemma pad2_two_digits n : 0 <= n < 100 -> pad 2 n = two_digits n.
Proof.
  intros H.
  apply (forall_below (fun n => String.eqb (pad 2 n) (two_digits n)) 100) in H.
  - now apply String.eqb_eq.
  - vm_compute. reflexivity.
Qed.

Lemma pad4_four_digits n : 0 <= n < 10000 -> pad 4 n = four_digits n.
Proof.
  intros H.
  apply (forall_below (fun n => String.eqb (pad 4 n) (four_digits n))
           (Z.to_nat 10000)) in H.
  - now apply String.eqb_eq.
  - vm_compute. reflexivity.
Qed.

Lemma pad3_length n : 0 <= n < 1000 -> String.length (pad 3 n) = 3%nat.
Proof.
  intros H.
  apply (forall_below (fun n => Nat.eqb (String.length (pad 3 n)) 3) 1000) in H.
  - now apply Nat.eqb_eq.
  - vm_compute. reflexivity.
Qed.

Lemma digits_fuel_length fuel : forall n acc,
  (String.length acc <= String.length (digits_fuel fuel n acc))%nat.
Proof.
  induction fuel as [|f IH]; intros n acc; simpl; [lia|].
  destruct (n <? 10); simpl; [lia|].
  specialize (IH (n / 10) (String (digit_char (n mod 10)) acc)). simpl in IH. lia.
Qed.

Lemma nat_digits_nonempty n : (1 <= String.length (nat_digits n))%nat.
Proof.
  unfold nat_digits. simpl. destruct (n <? 10); simpl; [lia|].
  pose proof (digits_fuel_length (Z.to_nat (Z.log2 n)) (n / 10)
                (String (digit_char (n mod 10)) EmptyString)) as H.
  simpl in H. lia.
Qed.

Lemma nat_digits_wide n : 10 <= n -> (2 <= String.length (nat_digits n))%nat.
Proof.
  intros H. unfold nat_digits.
  assert (Hl : 3 <= Z.log2 n) by (change 3 with (Z.log2 10); now apply Z.log2_le_mono).
  destruct (Z.to_nat (Z.log2 n)) as [|f] eqn:E; [lia|].
  cbn [digits_fuel]. destruct (Z.ltb_spec n 10) as [|_]; [lia|].
  destruct (n / 10 <? 10); simpl.
  - lia.
  - pose proof (digits_fuel_length f (n / 10 / 10)
      (String (digit_char ((n / 10) mod 10)) (String (digit_char (n mod 10)) EmptyString))) as H1.
    simpl in H1. lia.
Qed.

Lemma padStart_wide k p s : (k <= String.length s)%nat -> padStart k p s = s.
Proof.
  intros H. unfold padStart. apply Nat.leb_le in H. now rewrite H.
Qed.

Lemma toString_negative n : n < 0 -> toString n = String "-"%char (nat_digits (- n)).
Proof. intros H. unfold toString. destruct (Z.ltb_spec n 0); [reflexivity|lia]. Qed.

Lemma pad2_negative n : n < 0 -> pad 2 n = String "-"%char (nat_digits (- n)).
Proof.
  intros H. unfold pad. rewrite toString_negative by assumption.
  apply padStart_wide. simpl. pose proof (nat_digits_nonempty (- n)). lia.
Qed.

Lemma pad2_wide n : 10 <= n -> pad 2 n = nat_digits n.
Proof.
  intros H. unfold pad, toString. destruct (Z.ltb_spec n 0); [lia|].
  apply padStart_wide. now apply nat_digits_wide.
Qed.

Lemma digit_of_digit_char d : 0 <= d < 10 -> digit_of (digit_char d) = Some d.
Proof.
  intros H.
  assert (E : (match digit_of (digit_char d) with Some x => x =? d | None => false end) = true).
  { apply (forall_below (fun d => match digit_of (digit_char d) with
                                  | Some x => x =? d | None => false end) 10);
      [vm_compute; reflexivity | lia]. }
  destruct (digit_of (digit_char d)); [|discriminate].
  apply Z.eqb_eq in E. now subst.
Qed.

Lemma numeral_from_digits_fuel fuel : forall n acc,
  0 <= n < 2 ^ Z.of_nat fuel ->
  numeral_from 0 (digits_fuel fuel n acc) = numeral_from n acc.
Proof.
  induction fuel as [|f IH]; intros n acc Hn.
  - simpl in *. assert (n = 0) by lia. now subst.
  - cbn [digits_fuel]. destruct (Z.ltb_spec n 10) as [Hlt|Hge].
    + cbn [numeral_from]. rewrite digit_of_digit_char by (apply Z.mod_pos_bound; lia).
      rewrite Z.mod_small by lia. reflexivity.
    + rewrite IH.
      * cbn [numeral_from]. rewrite digit_of_digit_char by (apply Z.mod_pos_bound; lia).
        f_equal. pose proof (Z.div_mod n 10). lia.
      * rewrite Nat2Z.inj_succ, Z.pow_succ_r in Hn by lia.
        split; [apply Z.div_pos; lia|].
        apply Z.div_lt_upper_bound; lia.
Qed.

Lemma nat_digits_value n : 0 <= n -> numeral_value (nat_digits n) = Some n.
Proof.
  intros H. unfold numeral_value.
  pose proof (nat_digits_nonempty n) as Hne.
  destruct (nat_digits n) eqn:E; [simpl in Hne; lia|].
  rewrite <- E. unfold nat_digits. rewrite numeral_from_digits_fuel; [reflexivity|].
  split; [assumption|].
  destruct (Z.eq_dec n 0) as [->|Hz]; [reflexivity|].
  rewrite Nat2Z.inj_succ, Z2Nat.id by apply Z.log2_nonneg.
  apply Z.log2_spec. lia.
Qed.

Lemma two_digits_value n : 0 <= n < 100 -> numeral_value (two_digits n) = Some n.
Proof.
  intros H. unfold numeral_value, two_digits. cbn [numeral_from].
  assert (0 <= n / 10 < 10)
    by (split; [apply Z.div_pos; lia | apply Z.div_lt_upper_bound; lia]).
  rewrite !digit_of_digit_char by (try apply Z.mod_pos_bound; lia).
  f_equal. pose proof (Z.div_mod n 10). lia.
Qed.

(** ** [formatDuration] *)

Lemma seconds_fields s :
  0 <= s ->
  0 <= s / 3600 /\ 0 <= Z.rem s 3600 / 60 < 60 /\ 0 <= Z.rem s 60 < 60 /\
  s = 3600 * (s / 3600) + 60 * (Z.rem s 3600 / 60) + Z.rem s 60.
Proof.
  intros H.
  rewrite !Z.rem_mod_nonneg by lia.
  pose proof (Z.div_mod s 3600). pose proof (Z.mod_pos_bound s 3600).
  pose proof (Z.div_mod (s mod 3600) 60). pose proof (Z.mod_pos_bound (s mod 3600) 60).
  assert ((s mod 3600) mod 60 = s mod 60).
  { apply (Z.mod_unique s 60 (60 * (s / 3600) + s mod 3600 / 60)); lia. }
  assert (0 <= s / 3600) by (apply Z.div_pos; lia).
  assert (0 <= s mod 3600 / 60) by (apply Z.div_pos; lia).
  assert (s mod 3600 / 60 < 60) by (apply Z.div_lt_upper_bound; lia).
  lia.
Qed.

(** C8. For a second count [s >= 0] that is a safe integer (at most
    [MAX_SAFE_INTEGER], where the numbers of the program are exact), split
    as hours, minutes below 60 and
    seconds below 60: when the hour count is zero [formatDuration s] is
    [MM:SS], otherwise it is [HH:MM:SS]; minutes and seconds are two
    decimal digits each, and the hour field is the decimal numeral of the
    hour count, at least two characters wide, with a leading zero below
    ten.  The four sample values of the specification are as listed. *)
Theorem formatDuration_zero_padded (s : Z) :
  0 <= s <= MAX_SAFE_INTEGER ->
  let h := s / 3600 in
  let m := Z.rem s 3600 / 60 in
  let c := Z.rem s 60 in
  (s = 3600 * h + 60 * m + c /\ 0 <= h /\ 0 <= m < 60 /\ 0 <= c < 60) /\
  (h = 0 -> formatDuration s = two_digits m +++ ":" +++ two_digits c) /\
  (h <> 0 ->
   exists hh,
     formatDuration s = hh +++ ":" +++ two_digits m +++ ":" +++ two_digits c /\
     numeral_value hh = Some h /\
     (2 <= String.length hh)%nat /\
     (h < 100 -> hh = two_digits h)) /\
  formatDuration 0 = "00:00"%string /\
  formatDuration 59 = "00:59"%string /\
  formatDuration 60 = "01:00"%string /\
  formatDuration 3661 = "01:01:01"%string.
Proof.
  intros [Hs _] h m c.
  destruct (seconds_fields s Hs) as (Hh & Hm & Hc & Hsum).
  fold h m c in Hh, Hm, Hc, Hsum.
  split; [tauto|].
  assert (Em : pad 2 m = two_digits m) by (apply pad2_two_digits; lia).
  assert (Ec : pad 2 c = two_digits c) by (apply pad2_two_digits; lia).
  unfold formatDuration. fold h m c. fold (pad 2 h) (pad 2 m) (pad 2 c).
  rewrite Em, Ec.
  repeat split; try reflexivity.
  - intros ->. reflexivity.
  - intros Hnz. destruct (Z.ltb_spec 0 h) as [Hpos|]; [|lia].
    exists (pad 2 h). split; [reflexivity|].
    destruct (Z_lt_le_dec h 10) as [Hsmall|Hbig].
    + rewrite pad2_two_digits by lia.
      split; [apply two_digits_value; lia|].
      split; [unfold two_digits; cbn [String.length]; lia | reflexivity].
    + rewrite pad2_wide by assumption.
      split; [apply nat_digits_value; lia|].
      split; [now apply nat_digits_wide|].
      intros Hlt. rewrite <- pad2_wide by assumption.
      apply pad2_two_digits. lia.
Qed.

(** C10. [formatDuration] is a function on every integer: it has a string
    for each.  For [-3600 < s < 0] the hour count is not positive, so the
    [MM:SS] branch is taken; the minute count is negative and printed with
    its sign and without padding, and the second count is printed with its
    sign unless it is zero.  The result therefore starts with a minus sign;
    for -5 it is ["-1:-5"]. *)
Theorem formatDuration_negative (s : Z) :
  -3600 < s < 0 ->
  let m := Z.rem s 3600 / 60 in
  let c := Z.rem s 60 in
  (0 <? s / 3600) = false /\
  -60 <= m <= -1 /\ -59 <= c <= 0 /\
  formatDuration s =
    String "-"%char (nat_digits (- m)) +++ ":" +++
    (if c =? 0 then "00"%string else String "-"%char (nat_digits (- c))) /\
  formatDuration (-5) = "-1:-5"%string.
Proof.
  intros Hs m c.
  assert (Hh : s / 3600 = -1).
  { symmetry. apply (Z.div_unique s 3600 (-1) (s + 3600)); lia. }
  assert (Hr : Z.rem s 3600 = s) by (apply Z.rem_small_iff; lia).
  assert (Hm : -60 <= m <= -1).
  { unfold m. rewrite Hr. pose proof (Z.div_mod s 60).
    pose proof (Z.mod_pos_bound s 60). lia. }
  assert (Hc : -59 <= c <= 0).
  { unfold c. pose proof (Z.rem_bound_pos_neg s 60). lia. }
  split; [now rewrite Hh|].
  do 2 (split; [assumption|]).
  split; [|reflexivity].
  unfold formatDuration. fold m c. rewrite Hh. cbn [Z.ltb Z.compare].
  fold (pad 2 m) (pad 2 c). rewrite (pad2_negative m) by lia.
  destruct (Z.eqb_spec c 0) as [->|Hne]; [reflexivity|].
  rewrite (pad2_negative c) by lia. reflexivity.
Qed.

Lemma formatDuration_negative_witness :
  -3600 < -5 < 0 /\
  (0 <? (-5) / 3600) = false /\ formatDuration (-5) = "-1:-5"%string.
Proof.
  assert (Hs : -3600 < -5 < 0) by lia.
  pose proof (formatDuration_negative (-5) Hs) as H.
  cbv zeta in H. destruct H as (Hb & _ & _ & _ & He).
  repeat split; assumption.
Defined.

Lemma formatDuration_zero_padded_witness :
  0 <= 3661 <= MAX_SAFE_INTEGER /\
  exists hh,
    formatDuration 3661 = hh +++ ":" +++ two_digits 1 +++ ":" +++ two_digits 1 /\
    numeral_value hh = Some 1.
Proof.
  assert (Hs : 0 <= 3661 <= MAX_SAFE_INTEGER)
    by (vm_compute; split; discriminate).
  pose proof (formatDuration_zero_padded 3661 Hs) as H.
  cbv zeta in H. destruct H as (_ & _ & Hh & _).
  destruct Hh as (hh & He & Hv & _); [discriminate|].
  split; [assumption|]. exists hh. split; assumption.
Defined.

(** ** Running the methods *)

Ltac run_methods :=
  cbv beta iota zeta delta
    [handle exec handler onended onstop togglePause
     startRecording startRecording_try startRecording_catch
     pauseRecording resumeRecording stopRecording
     downloadRecording cleanup ondataavailable duration_callback
     startDurationTimer stopDurationTimer truthy_timer
     getDisplayMedia newMediaRecorder recorder_start recorder_pause
     recorder_resume recorder_stop set_state setInterval clearInterval log click
     tryCatch bind modify gets ret throw
     Set_.on_svc Set_.on_host
     Set_.mediaRecorder Set_.recordedChunks Set_.stream Set_.startTime
     Set_.pausedTime Set_.durationTimer Set_._isRecording Set_._isPaused
     Set_._duration Set_._error
     Set_.timers Set_.next_timer Set_.tracks Set_.console Set_.downloads
     svc host mediaRecorder recordedChunks stream startTime pausedTime
     durationTimer _isRecording _isPaused _duration _error
     timers next_timer tracks console downloads
     acquisition constructor_throws start_throws start_now
     rec_stream state videoTracks audioTracks
     recorder_state recorder_active option_map start_succeeds returns
     timer_ids_ok ticker_inv flag_inv timer_set idle_defaults status
     recordingState negb
     fst snd] in *.

Lemma forEach_track_stop (l : list nat) (w : World) :
  forEach track_stop l w =
  (Normal tt, Set_.tracks (stop_all l (tracks (host w))) w).
Proof.
  revert w. induction l as [|t l IH]; intros [s [tm nt tk co dl]].
  - reflexivity.
  - cbn [forEach]. unfold bind at 1. unfold track_stop at 1, modify at 1.
    rewrite IH. reflexivity.
Qed.

Ltac split_cases :=
  run_methods;
  repeat (first
    [ rewrite forEach_track_stop
    | match goal with
      | |- context [match ?x with _ => _ end] => is_var x; destruct x
      | |- context [if bool_decide ?P then _ else _] =>
          destruct (bool_decide P) eqn:?
      | |- context [if Nat.ltb ?a ?b then _ else _] =>
          destruct (Nat.ltb a b) eqn:?
      | |- context [if Nat.eqb ?a ?b then _ else _] =>
          destruct (Nat.eqb a b) eqn:?
      end ];
    run_methods).

Lemma timer_ids_ok_step (e : Event) (w : World) :
  timer_ids_ok w -> timer_ids_ok (handle e w).
Proof.
  destruct w as [[mr ch st t0 p0 dt ir ip du er] [tm nt tk co dl]].
  destruct e as [[acq ct stt now]|now|now|now| |t now|b|d| ];
    intros [Hn Ht]; split_cases; simplify_eq;
    (split; [try assumption; try lia | intros ? ?; simplify_eq; eauto]).
Qed.

Ltac close_inv :=
  simplify_eq;
  repeat match goal with
         | H : ?a = ?a -> _ |- _ => pose proof (H eq_refl); clear H
         | H : forall t, Some ?x = Some t -> _ |- _ =>
             pose proof (H x eq_refl); clear H
         end;
  try discriminate; try contradiction; try congruence;
  repeat split; try assumption; try lia; try discriminate; try reflexivity;
  try (intros; simplify_eq; eauto; congruence);
  try (apply set_eq; intros ?;
       rewrite ?elem_of_union, ?elem_of_difference, ?elem_of_singleton,
         ?elem_of_empty; intuition congruence).

(** ** Invariants along traces *)

Lemma run_cons (e : Event) (es : list Event) (w : World) :
  run (e :: es) w = run es (handle e w).
Proof. reflexivity. Qed.

Lemma run_app (es1 es2 : list Event) (w : World) :
  run (es1 ++ es2) w = run es2 (run es1 w).
Proof. apply fold_left_app. Qed.

Section Gated.
Variable g : World -> Event -> bool.
Variable I : World -> Prop.
Hypothesis step : forall e w, g w e = true -> I w -> I (handle e w).

Lemma gated_invariant (es : list Event) :
  forall w, gated g es w = true -> I w -> I (run es w).
Proof.
  induction es as [|e es IH]; intros w Hg Hw; [assumption|].
  cbn [gated] in Hg. apply andb_true_iff in Hg as [He Hes].
  rewrite run_cons. apply IH; [assumption|]. now apply step.
Qed.
End Gated.

Lemma timer_ids_ok_run (es : list Event) (w : World) :
  timer_ids_ok w -> timer_ids_ok (run es w).
Proof.
  revert w. induction es as [|e es IH]; intros w Hw; [assumption|].
  rewrite run_cons. apply IH. now apply timer_ids_ok_step.
Qed.

Lemma timer_ids_ok_initial : timer_ids_ok initial.
Proof. split; [discriminate|]. intros t H. discriminate H. Qed.

Lemma ticker_inv_step (e : Event) (w : World) :
  start_without_ticker w e = true -> ticker_inv w -> ticker_inv (handle e w).
Proof.
  destruct w as [[mr ch st t0 p0 dt ir ip du er] [tm nt tk co dl]].
  destruct e as [[acq ct stt now]|now|now|now| |t now|b|d| ];
    unfold start_without_ticker; intros Hg [[Hn Ht] [Hs Hp]];
    destruct dt as [[|t']|];
    split_cases; cbn [negb orb] in Hg; close_inv.
Qed.

Lemma ticker_inv_initial : ticker_inv initial.
Proof.
  split; [apply timer_ids_ok_initial|]. split; [reflexivity|].
  intros H. discriminate H.
Qed.

Lemma flag_inv_step (e : Event) (w : World) :
  no_failure_while_active w e = true -> flag_inv w -> flag_inv (handle e w).
Proof.
  destruct w as [[mr ch st t0 p0 dt ir ip du er] [tm nt tk co dl]].
  destruct e as [[acq ct stt now]|now|now|now| |t now|b|d| ];
    unfold no_failure_while_active; intros Hg [Ha Hp];
    split_cases; cbn [negb orb] in Hg; close_inv.
Qed.

Lemma flag_inv_initial : flag_inv initial.
Proof. split; intros H; discriminate H. Qed.

Lemma size_timer_set (d : option nat) : (size (timer_set d) <= 1)%nat.
Proof.
  destruct d as [t|]; cbn [timer_set].
  - rewrite size_singleton. lia.
  - rewrite size_empty. lia.
Qed.

(** What leaves Recording clears the interval the service holds. *)
Lemma ticker_cancelled (w : World) :
  ticker_inv w ->
  (forall now, recorder_state w = Some recording ->
     durationTimer (svc (handle (EvPause now) w)) = None /\
     timers (host (handle (EvPause now) w)) = ∅) /\
  (recorder_active w = true ->
     durationTimer (svc (handle EvStop w)) = None /\
     timers (host (handle EvStop w)) = ∅) /\
  (forall d,
     durationTimer (svc (handle (EvRecorderStop d) w)) = None /\
     timers (host (handle (EvRecorderStop d) w)) = ∅).
Proof.
  destruct w as [[mr ch st t0 p0 dt ir ip du er] [tm nt tk co dl]].
  intros [[Hn Ht] [Hs Hp]].
  destruct dt as [[|t']|]; (split; [|split]); intros; split_cases; close_inv.
Qed.

(** C2, as the code has it.  Along every sequence of events in which no
    [startRecording] call succeeds while the service still holds a ticker
    handle, the active intervals are exactly the one [durationTimer]
    refers to, so at most one ticker is active; a pause or stop whose
    guard passes and the completion of a stop clear that interval
    ([clearInterval]) and leave none active.  Pause, resume, stop, the
    tick, data and track callbacks may come in any order. *)
Theorem ticker_unique_without_restart (es : list Event) :
  gated start_without_ticker es initial = true ->
  let w := run es initial in
  timers (host w) = timer_set (durationTimer (svc w)) /\
  (size (timers (host w)) <= 1)%nat /\
  (forall now, recorder_state w = Some recording ->
     durationTimer (svc (handle (EvPause now) w)) = None /\
     timers (host (handle (EvPause now) w)) = ∅) /\
  (recorder_active w = true ->
     durationTimer (svc (handle EvStop w)) = None /\
     timers (host (handle EvStop w)) = ∅) /\
  (forall d,
     durationTimer (svc (handle (EvRecorderStop d) w)) = None /\
     timers (host (handle (EvRecorderStop d) w)) = ∅).
Proof.
  intros Hg w.
  assert (Hinv : ticker_inv w).
  { apply (gated_invariant start_without_ticker ticker_inv);
      [exact ticker_inv_step | assumption | exact ticker_inv_initial]. }
  split; [apply Hinv|].
  split; [destruct Hinv as (_ & -> & _); apply size_timer_set|].
  now apply ticker_cancelled.
Qed.

Lemma ticker_unique_without_restart_witness :
  let es := [EvStart (granted 0); EvPause 1500; EvResume 4000; EvPause 4500;
             EvStart (regranted 9000)] in
  gated start_without_ticker es initial = true /\
  (size (timers (host (run es initial))) <= 1)%nat.
Proof.
  intros es.
  assert (Hg : gated start_without_ticker es initial = true) by (vm_compute; reflexivity).
  split; [exact Hg|].
  exact (proj1 (proj2 (ticker_unique_without_restart es Hg))).
Defined.

(** C2 as stated fails: a second [startRecording] while Recording succeeds
    (the new recorder is inactive and starts), [startDurationTimer]
    overwrites the handle and both intervals stay active. *)
Lemma restart_leaves_two_tickers :
  let es := [EvStart (granted 0); EvStart (regranted 5000)] in
  status (run [EvStart (granted 0)] initial) = Recording /\
  elements (timers (host (run es initial))) = [2%nat; 1%nat] /\
  ~ (forall es, (size (timers (host (run es initial))) <= 1)%nat).
Proof.
  intros es. split; [reflexivity|]. split; [vm_compute; reflexivity|].
  intros H. specialize (H es). vm_compute in H. lia.
Qed.

(** C9, as the code has it.  Along every sequence of events in which no
    [startRecording] call fails while the recorder held is recording or
    paused, [isPaused] implies [isRecording]. *)
Theorem paused_implies_recording (es : list Event) :
  gated no_failure_while_active es initial = true ->
  let w := run es initial in
  _isPaused (svc w) = true -> _isRecording (svc w) = true.
Proof.
  intros Hg w.
  assert (Hinv : flag_inv w).
  { apply (gated_invariant no_failure_while_active flag_inv);
      [exact flag_inv_step | assumption | exact flag_inv_initial]. }
  apply Hinv.
Qed.

Lemma paused_implies_recording_witness :
  let es := [EvStart (granted 0); EvPause 1500; EvStart (regranted 9000); EvPause 9500] in
  gated no_failure_while_active es initial = true /\
  _isPaused (svc (run es initial)) = true /\
  _isRecording (svc (run es initial)) = true.
Proof.
  intros es.
  assert (Hg : gated no_failure_while_active es initial = true) by (vm_compute; reflexivity).
  assert (Hp : _isPaused (svc (run es initial)) = true) by (vm_compute; reflexivity).
  split; [exact Hg|]. split; [exact Hp|].
  exact (paused_implies_recording es Hg Hp).
Defined.

(** C9 as stated fails: a [startRecording] call that is rejected while
    Recording resets [isRecording] and keeps the running recorder, and the
    next [pauseRecording] passes its guard. *)
Lemma paused_without_recording :
  let es := [EvStart (granted 0); EvStart denied; EvPause 1500] in
  _isPaused (svc (run es initial)) = true /\
  _isRecording (svc (run es initial)) = false /\
  ~ (forall es, _isPaused (svc (run es initial)) = true ->
                _isRecording (svc (run es initial)) = true).
Proof.
  intros es. split; [reflexivity|]. split; [reflexivity|].
  intros H. specialize (H es eq_refl). discriminate H.
Qed.

(** ** Guards of pause and resume *)

(** C6. [pauseRecording] with a recorder that is not recording (none held,
    inactive or paused) and [resumeRecording] with a recorder that is not
    paused change no field of the service and nothing in the host, and
    return normally; so do both calls in every other state. *)
Theorem invalid_transition_noop (now : Z) (w : World) :
  (recorder_state w <> Some recording -> handle (EvPause now) w = w) /\
  (recorder_state w <> Some paused -> handle (EvResume now) w = w) /\
  returns (pauseRecording now) w /\
  returns (resumeRecording now) w.
Proof.
  destruct w as [[mr ch st t0 p0 dt ir ip du er] [tm nt tk co dl]].
  destruct mr as [[rs [| |]]|]; repeat split; try intros H;
    split_cases; try reflexivity; congruence.
Qed.

Lemma invalid_transition_noop_witness :
  let w := run [EvStart (granted 0); EvPause 1500] initial in
  recorder_state w <> Some recording /\
  handle (EvPause 2000) w = w /\
  recorder_state initial <> Some paused /\
  handle (EvResume 2000) initial = initial.
Proof.
  intros w.
  assert (H1 : recorder_state w <> Some recording) by (vm_compute; discriminate).
  assert (H2 : recorder_state initial <> Some paused) by (vm_compute; discriminate).
  split; [exact H1|].
  split; [exact (proj1 (invalid_transition_noop 2000 w) H1)|].
  split; [exact H2|].
  exact (proj1 (proj2 (invalid_transition_noop 2000 initial)) H2).
Defined.

(** ** A failed start *)

(** Whenever the [try] block throws, the [catch] block publishes the denial
    message and the defaults of the three other fields. *)
Lemma failed_start_publishes_error (env : StartEnv) (w : World) :
  start_succeeds env w = false ->
  let w' := handle (EvStart env) w in
  _error (svc w') = Some denial_message /\ idle_defaults w'.
Proof.
  destruct w as [[mr ch st t0 p0 dt ir ip du er] [tm nt tk co dl]].
  destruct env as [acq ct stt now].
  intros H w'. subst w'. revert H.
  split_cases; intros H; try discriminate H; repeat split.
Qed.

(** C1, at the input where the code departs from it.  The stream is
    granted and the recorder cannot be built: the call fails, the denial
    message and the defaults are published and no recorder is held, but
    the [stream] field keeps the stream and both of its tracks stay
    live. *)
Theorem failed_start_retains_stream :
  let w := handle (EvStart unsupported) initial in
  start_succeeds unsupported initial = false /\
  _error (svc w) = Some denial_message /\
  idle_defaults w /\
  mediaRecorder (svc w) = None /\
  stream (svc w) = Some sample_stream /\
  Forall (fun t => tracks (host w) !! t = Some live) (getTracks sample_stream).
Proof.
  repeat split; try reflexivity.
  repeat constructor.
Qed.

(** ** The chunk buffer *)

Lemma segments_cons (e : Event) (es : list Event) :
  segments (e :: es) = segments [e] ++ segments es.
Proof. unfold segments. cbn [flat_map]. now rewrite app_nil_r. Qed.

Lemma chunks_step (e : Event) (w : World) :
  resets_chunks e = false ->
  recordedChunks (svc (handle e w)) =
  recordedChunks (svc w) ++ List.filter nonempty (segments [e]).
Proof.
  destruct w as [[mr ch st t0 p0 dt ir ip du er] [tm nt tk co dl]].
  destruct e as [env|now|now|now| |t now|b|d| ]; intros H; try discriminate H;
    cbn [segments flat_map List.filter app]; unfold nonempty;
    split_cases; rewrite ?app_nil_r; reflexivity.
Qed.

Lemma chunks_run (es : list Event) (w : World) :
  forallb (fun e => negb (resets_chunks e)) es = true ->
  recordedChunks (svc (run es w)) =
  recordedChunks (svc w) ++ List.filter nonempty (segments es).
Proof.
  revert w. induction es as [|e es IH]; intros w H.
  - cbn. now rewrite app_nil_r.
  - cbn [forallb] in H. apply andb_true_iff in H as [He Hes].
    apply negb_true_iff in He.
    rewrite run_cons, IH by assumption.
    rewrite chunks_step by assumption.
    now rewrite (segments_cons e es), List.filter_app, app_assoc.
Qed.

(** C5, as the code has it.  Over any run of events without a start and
    without the completion of a stop, whatever the status, the chunk
    buffer grows by exactly the delivered segments of non-zero size, in
    the order of delivery: none is dropped, reordered or merged, and the
    segments of size zero are skipped. *)
Theorem chunks_appended_in_order (es : list Event) (w : World) :
  forallb (fun e => negb (resets_chunks e)) es = true ->
  recordedChunks (svc (run es w)) =
  recordedChunks (svc w) ++ List.filter nonempty (segments es).
Proof. exact (chunks_run es w). Qed.

Lemma chunks_appended_in_order_witness :
  let w := run [EvStart (granted 0)] initial in
  let es := [EvData (segment Byte.x01); EvTick 1 1000; EvPause 1500;
             EvData {| blob_bytes := []; blob_type := "video/webm" |};
             EvResume 2000; EvData (segment Byte.x02); EvStop;
             EvData (segment Byte.x03)] in
  forallb (fun e => negb (resets_chunks e)) es = true /\
  recordedChunks (svc (run es w)) =
  [segment Byte.x01; segment Byte.x02; segment Byte.x03].
Proof.
  intros w es.
  assert (H : forallb (fun e => negb (resets_chunks e)) es = true) by reflexivity.
  split; [exact H|].
  exact (chunks_appended_in_order es w H).
Defined.

(** C5 as stated fails on its last part: the handler does not look at the
    status.  After a pause and a stop the recorder delivers the segment it
    still holds, and it is appended while the published status is
    Paused. *)
Lemma chunk_appended_while_paused :
  let w := run [EvStart (granted 0); EvPause 1500; EvStop] initial in
  let b := segment Byte.x01 in
  status w = Paused /\
  recordedChunks (svc w) = [] /\
  recordedChunks (svc (handle (EvData b) w)) = [b] /\
  ~ (forall es b,
       recordedChunks (svc (handle (EvData b) (run es initial))) <>
       recordedChunks (svc (run es initial)) ->
       status (run es initial) = Recording).
Proof.
  intros w b. repeat split; try reflexivity.
  intros H.
  specialize (H [EvStart (granted 0); EvPause 1500; EvStop] b).
  assert (Hne : recordedChunks (svc (handle (EvData b) w)) <> recordedChunks (svc w))
    by (vm_compute; discriminate).
  specialize (H Hne). vm_compute in H. discriminate H.
Qed.

(** ** The file name *)

Lemma digit_char_not_colon d :
  0 <= d < 10 -> Ascii.eqb (digit_char d) ":"%char = false.
Proof.
  intros H.
  apply (forall_below (fun d => negb (Ascii.eqb (digit_char d) ":"%char)) 10) in H;
    [now apply negb_true_iff | vm_compute; reflexivity].
Qed.

Lemma tens_digit n : 0 <= n < 100 -> 0 <= n / 10 < 10.
Proof.
  intros H. split; [apply Z.div_pos; lia | apply Z.div_lt_upper_bound; lia].
Qed.

Lemma units_digit n : 0 <= n mod 10 < 10.
Proof. apply Z.mod_pos_bound. lia. Qed.

(** For a date with a four digit year, the first nineteen characters of
    the ISO string with their colons replaced are the stamp. *)
Lemma file_name_stamp (d : JsDate) :
  four_digit_date d ->
  file_name d = "screen-recording-" +++ stamp d +++ ".webm".
Proof.
  intros (Hy & Hmo & Hd & Hh & Hmi & Hs & Hms).
  unfold file_name, toISOString, stamp.
  destruct (Z.leb_spec 0 (year d)); [|lia].
  destruct (Z.leb_spec (year d) 9999); [|lia].
  cbn [andb].
  rewrite pad4_four_digits, !pad2_two_digits by lia.
  unfold four_digits, two_digits.
  cbv beta iota delta [String.append].
  cbn [slice0 replace_colons].
  assert (0 <= year d / 1000 < 10)
    by (split; [apply Z.div_pos; lia | apply Z.div_lt_upper_bound; lia]).
  pose proof (Z.mod_pos_bound (year d) 100 ltac:(lia)).
  rewrite !digit_char_not_colon
    by first [assumption | apply units_digit | apply tens_digit; lia].
  reflexivity.
Qed.

(** ** Finalization *)

Lemma downloads_step (e : Event) (w : World) :
  (forall d, e <> EvRecorderStop d) ->
  downloads (host (handle e w)) = downloads (host w).
Proof.
  destruct w as [[mr ch st t0 p0 dt ir ip du er] [tm nt tk co dl]].
  destruct e as [[acq ct stt now]|now|now|now| |t now|b|d| ]; intros H;
    try (exfalso; apply (H d); reflexivity);
    split_cases; reflexivity.
Qed.

Lemma downloads_run (es : list Event) (w : World) :
  Forall (fun e => forall d, e <> EvRecorderStop d) es ->
  downloads (host (run es w)) = downloads (host w).
Proof.
  revert w. induction es as [|e es IH]; intros w H; [reflexivity|].
  rewrite run_cons, IH, downloads_step; [reflexivity| |]; now inversion H.
Qed.

Lemma segments_data (bs : list Blob) (es : list Event) :
  segments (List.map EvData bs ++ es) = bs ++ segments es.
Proof.
  induction bs as [|b bs IH]; [reflexivity|].
  cbn [List.map app]. rewrite segments_cons, IH. reflexivity.
Qed.

Lemma filter_all {A} (p : A -> bool) (l : list A) :
  forallb p l = true -> List.filter p l = l.
Proof.
  induction l as [|x l IH]; [reflexivity|].
  cbn [forallb List.filter]. intros H. apply andb_true_iff in H as [Hx Hl].
  rewrite Hx, IH by assumption. reflexivity.
Qed.

(** The handler of the stop event, on any state. *)
Lemma onstop_effects (d : JsDate) (w : World) :
  let w' := handle (EvRecorderStop d) w in
  let chunks := recordedChunks (svc w) in
  (chunks = [] ->
     downloads (host w') = downloads (host w) /\
     console (host w') =
       console (host w) ++ [console_warn "No recorded data available"]) /\
  (chunks <> [] ->
     downloads (host w') =
       downloads (host w) ++
       [{| href := {| blob_bytes := List.concat (List.map blob_bytes chunks);
                      blob_type := "video/webm" |};
           download := file_name d |}] /\
     console (host w') = console (host w)) /\
  recordingState w' = idle_view /\
  status w' = Idle /\
  recordedChunks (svc w') = [] /\
  mediaRecorder (svc w') = None /\
  stream (svc w') = None.
Proof.
  destruct w as [[mr ch st t0 p0 dt ir ip du er] [tm nt tk co dl]].
  intros w' chunks. subst w' chunks.
  destruct ch as [|c ch]; repeat split;
    split_cases; try reflexivity; try congruence;
    match goal with
    | E : (_ =? _)%nat = _ |- _ => cbn in E; discriminate E
    end.
Qed.

(** C4. When the stop event of the recorder arrives at wall-clock time
    [d] (a date with a four digit year): with an empty chunk buffer no
    download is offered and one warning is logged; with a non-empty buffer
    exactly one download is offered, its content the buffered chunks end
    to end in buffer order, its type [video/webm], its name
    [screen-recording-YYYY-MM-DDTHH-MM-SS.webm] from [d], and nothing is
    logged.  In both cases the published state is reset to the Idle
    defaults and buffer, recorder and stream are dropped.  A session that
    starts, receives the non-empty segments [bs] and is stopped exports
    exactly [bs] end to end. *)
Theorem finalization_exports_chunks (d : JsDate) (w : World) :
  four_digit_date d ->
  let w' := handle (EvRecorderStop d) w in
  let chunks := recordedChunks (svc w) in
  (chunks = [] <-> downloads (host w') = downloads (host w)) /\
  (chunks = [] ->
     console (host w') =
       console (host w) ++ [console_warn "No recorded data available"]) /\
  (chunks <> [] ->
     downloads (host w') =
       downloads (host w) ++
       [{| href := {| blob_bytes := List.concat (List.map blob_bytes chunks);
                      blob_type := "video/webm" |};
           download := "screen-recording-" +++ stamp d +++ ".webm" |}] /\
     console (host w') = console (host w)) /\
  (recordingState w' = idle_view /\ status w' = Idle /\
   recordedChunks (svc w') = [] /\ mediaRecorder (svc w') = None /\
   stream (svc w') = None) /\
  (forall bs now,
     bs <> [] -> forallb nonempty bs = true ->
     downloads (host (run (EvStart (granted now) :: List.map EvData bs ++
                           [EvStop; EvRecorderStop d]) initial)) =
     [{| href := {| blob_bytes := List.concat (List.map blob_bytes bs);
                    blob_type := "video/webm" |};
         download := "screen-recording-" +++ stamp d +++ ".webm" |}]).
Proof.
  intros Hd w' chunks.
  pose proof (onstop_effects d w) as (He & Hne & Hidle).
  fold w' chunks in He, Hne, Hidle.
  rewrite (file_name_stamp d Hd) in Hne.
  split.
  { split; [intros H; now apply He|].
    intros Heq. destruct (recordedChunks (svc w)) as [|c ch] eqn:E; [reflexivity|].
    exfalso. destruct Hne as [Hdl _]; [subst chunks; congruence|].
    rewrite Heq in Hdl. apply (f_equal (@List.length _)) in Hdl.
    rewrite length_app in Hdl. cbn in Hdl. lia. }
  split; [intros H; now apply He|].
  split; [assumption|].
  split; [assumption|].
  intros bs now Hbs Hall.
  rewrite run_cons, (app_assoc _ [EvStop] [EvRecorderStop d]), run_app.
  set (w1 := handle (EvStart (granted now)) initial).
  set (w2 := run (List.map EvData bs ++ [EvStop]) w1).
  assert (Hch : recordedChunks (svc w2) = bs).
  { unfold w2. rewrite chunks_run.
    - rewrite segments_data. cbn [segments flat_map]. rewrite !app_nil_r.
      now rewrite filter_all.
    - rewrite forallb_app. apply andb_true_iff. split; [|reflexivity].
      apply forallb_forall. intros e He'. apply in_map_iff in He' as (b & <- & _).
      reflexivity. }
  assert (Hdl : downloads (host w2) = []).
  { unfold w2. rewrite downloads_run; [reflexivity|].
    apply Forall_app. split; [|repeat constructor; discriminate].
    apply List.Forall_forall. intros e He' d'.
    apply in_map_iff in He' as (b & <- & _). discriminate. }
  cbn [run fold_left].
  pose proof (onstop_effects d w2) as (_ & Hne2 & _).
  rewrite Hch in Hne2. destruct (Hne2 Hbs) as [-> _].
  rewrite Hdl, (file_name_stamp d Hd). reflexivity.
Qed.

Lemma finalization_exports_chunks_witness :
  four_digit_date sample_date /\
  downloads (host (run [EvStart (granted 0); EvData (segment Byte.x01);
                        EvData (segment Byte.x02); EvData (segment Byte.x03);
                        EvStop; EvRecorderStop sample_date] initial)) =
  [{| href := {| blob_bytes := [Byte.x01; Byte.x02; Byte.x03];
                 blob_type := "video/webm" |};
      download := "screen-recording-2026-11-02T09-05-07.webm" |}].
Proof.
  assert (Hd : four_digit_date sample_date) by (unfold four_digit_date; cbn; lia).
  split; [exact Hd|].
  pose proof (finalization_exports_chunks sample_date initial Hd) as H.
  cbv zeta in H. destruct H as (_ & _ & _ & _ & H).
  exact (H [segment Byte.x01; segment Byte.x02; segment Byte.x03] 0
           ltac:(discriminate) eq_refl).
Defined.

(** ** Revocation of the capture *)

Lemma stop_all_lookup (l : list nat) : forall (m : gmap nat TrackState) (t : nat),
  stop_all l m !! t = if bool_decide (t ∈ l) then Some ended else m !! t.
Proof.
  induction l as [|x l IH]; intros m t.
  - cbn. rewrite bool_decide_eq_false_2; [reflexivity|]. apply not_elem_of_nil.
  - unfold stop_all. cbn [fold_left]. fold (stop_all l (<[x := ended]> m)).
    rewrite IH.
    destruct (bool_decide (t ∈ l)) eqn:El.
    + apply bool_decide_eq_true in El.
      rewrite bool_decide_eq_true_2; [reflexivity|]. now apply list_elem_of_further.
    + apply bool_decide_eq_false in El.
      destruct (decide (t = x)) as [->|Hne].
      * rewrite lookup_insert_eq.
        rewrite bool_decide_eq_true_2; [reflexivity|]. apply list_elem_of_here.
      * rewrite lookup_insert_ne by congruence.
        rewrite bool_decide_eq_false_2; [reflexivity|].
        intros Hin. apply elem_of_cons in Hin as [?|?]; contradiction.
Qed.

(** After a stop while a recorder is active and the stop event that
    follows: what is left of the session. *)
Lemma stop_then_finalize (w : World) (d : JsDate) :
  timer_ids_ok w ->
  recorder_active w = true ->
  let w1 := handle EvStop w in
  let w2 := handle (EvRecorderStop d) w1 in
  recorder_state w1 = Some inactive /\
  durationTimer (svc w1) = None /\
  (forall t, durationTimer (svc w) = Some t -> t ∉ timers (host w1)) /\
  (forall st t, stream (svc w) = Some st -> t ∈ getTracks st ->
     tracks (host w2) !! t = Some ended) /\
  stream (svc w2) = None /\
  mediaRecorder (svc w2) = None /\
  recordingState w2 = idle_view /\
  status w2 = Idle.
Proof.
  destruct w as [[mr ch st t0 p0 dt ir ip du er] [tm nt tk co dl]].
  intros [Hn Ht] Ha w1 w2. subst w1 w2.
  destruct dt as [[|t']|]; [exfalso; now apply (Ht 0%nat)| |];
    (destruct mr as [[rs [| |]]|]; [discriminate Ha| | |discriminate Ha]);
    repeat split; try (intros st' t Hst Hin); try (intros t Hdt);
    split_cases; simplify_eq; try reflexivity;
    try (rewrite stop_all_lookup, bool_decide_eq_true_2 by assumption; reflexivity);
    try (rewrite elem_of_difference, elem_of_singleton; tauto).
Qed.

(** C7. In every reachable state, the handler of the [ended] event of the
    video track leaves exactly the state [stopRecording ()] leaves.  When a
    recorder is recording or paused, this is: the recorder is stopped and
    the ticker of the service is cleared, and with the stop event that
    follows every track of the stream is stopped, stream and recorder are
    dropped and the published state is back at the Idle defaults. *)
Theorem revocation_is_stop (es : list Event) (d : JsDate) :
  let w := run es initial in
  recorder_active w = true ->
  let w1 := handle EvTrackEnded w in
  let w2 := handle (EvRecorderStop d) w1 in
  w1 = handle EvStop w /\
  w2 = handle (EvRecorderStop d) (handle EvStop w) /\
  recorder_state w1 = Some inactive /\
  durationTimer (svc w1) = None /\
  (forall t, durationTimer (svc w) = Some t -> t ∉ timers (host w1)) /\
  (forall st t, stream (svc w) = Some st -> t ∈ getTracks st ->
     tracks (host w2) !! t = Some ended) /\
  stream (svc w2) = None /\
  mediaRecorder (svc w2) = None /\
  recordingState w2 = idle_view /\
  status w2 = Idle.
Proof.
  intros w Ha w1 w2.
  split; [reflexivity|]. split; [reflexivity|].
  apply stop_then_finalize; [|assumption].
  apply timer_ids_ok_run, timer_ids_ok_initial.
Qed.

Lemma revocation_is_stop_witness :
  let w := run [EvStart (granted 0); EvPause 1500] initial in
  recorder_active w = true /\
  handle EvTrackEnded w = handle EvStop w /\
  tracks (host (handle (EvRecorderStop sample_date) (handle EvTrackEnded w)))
    !! 1%nat = Some ended.
Proof.
  intros w.
  assert (Ha : recorder_active w = true) by reflexivity.
  pose proof (revocation_is_stop [EvStart (granted 0); EvPause 1500] sample_date Ha) as H.
  cbv zeta in H. destruct H as (H1 & _ & _ & _ & _ & Htr & _).
  split; [exact Ha|]. split; [exact H1|].
  apply (Htr sample_stream 1%nat); [reflexivity|].
  apply list_elem_of_here.
Defined.

(** ** Elapsed time *)

Ltac open_hyps :=
  repeat match goal with
         | H : _ /\ _ |- _ => destruct H
         | H : exists _, _ |- _ => destruct H
         end.

Lemma session_sim_step (e : Event) (w : World) (a a' : Session) :
  session_step e w a = Some a' ->
  session_sim w a -> session_sim (handle e w) a'.
Proof.
  destruct w as [[mr ch st t0 p0 dt ir ip du er] [tm nt tk co dl]].
  destruct a as [ph si ba].
  destruct e as [[acq ct stt now]|now|now|now| |t now|b|d| ];
    destruct ph; cbn [session_step phase since banked recorded_ms];
    intros Hstep [Hids Hsim];
    try discriminate Hstep.
  all: try match type of Hstep with
           | context [start_succeeds ?env ?w] =>
               destruct (start_succeeds env w) eqn:Hs
           end.
  all: injection Hstep as <-.
  all: (split; [now apply timer_ids_ok_step|]).
  all: destruct Hids as [Hn Ht].
  all: cbn [phase since banked recorded_ms idle_session] in *; open_hyps.
  all: split_cases; simplify_eq; try discriminate.
  all: repeat split; try (eexists; split; [reflexivity|]); close_inv;
    unfold recorded_ms; cbn [since banked]; lia.
Qed.

Lemma session_sim_run (es : list Event) :
  forall w a a',
    session_run es w a = Some a' ->
    session_sim w a -> session_sim (run es w) a'.
Proof.
  induction es as [|e es IH]; intros w a a' Hrun Hsim.
  - injection Hrun as <-. assumption.
  - cbn [session_run] in Hrun.
    destruct (session_step e w a) as [a1|] eqn:Hstep; [|discriminate Hrun].
    rewrite run_cons. apply (IH _ a1); [assumption|].
    now apply (session_sim_step e w a).
Qed.

Lemma session_sim_initial : session_sim initial idle_session.
Proof.
  split; [apply timer_ids_ok_initial|]. repeat split.
Qed.

Lemma tick_active (t : nat) (now : Z) (w : World) :
  timers (host w) = {[t]} ->
  _duration (svc (handle (EvTick t now) w)) = (now - startTime (svc w)) / 1000.
Proof.
  destruct w as [[mr ch st t0 p0 dt ir ip du er] [tm nt tk co dl]].
  cbn [host timers]. intros ->. split_cases; [reflexivity|].
  match goal with H : bool_decide _ = false |- _ =>
    apply bool_decide_eq_false in H; exfalso; apply H end.
  now apply elem_of_singleton.
Qed.

Lemma tick_inactive (t : nat) (now : Z) (w : World) :
  timers (host w) = ∅ -> handle (EvTick t now) w = w.
Proof.
  destruct w as [[mr ch st t0 p0 dt ir ip du er] [tm nt tk co dl]].
  cbn [host timers]. intros ->. split_cases; [|reflexivity].
  match goal with H : bool_decide _ = true |- _ =>
    apply bool_decide_eq_true in H; exfalso end.
  now apply (not_elem_of_empty (C := gset nat) t).
Qed.

Lemma resume_shifts_start (now : Z) (w : World) :
  recorder_state w = Some paused ->
  startTime (svc (handle (EvResume now) w)) =
  startTime (svc w) + (now - pausedTime (svc w)).
Proof.
  destruct w as [[mr ch st t0 p0 dt ir ip du er] [tm nt tk co dl]].
  intros H. split_cases; simplify_eq; reflexivity.
Qed.

(** C3. Along every sequence of valid transitions from the initial state,
    with ticks and data segments anywhere: while the session is Recording
    exactly one ticker is active, the start time of the service is the
    start of the current Recording interval moved back by the Recording
    time banked before it, and a tick at time [now] publishes
    [floor ((now - startTime) / 1000)], which is the whole seconds of the
    wall-clock time spent in Recording so far, pauses left out.  While
    Paused no ticker is active, a tick changes nothing, and a resume at
    time [now] moves the start time forward by [now - pausedTime].  In the
    other phases no ticker is active. *)
Theorem duration_counts_recording_time (es : list Event) (a : Session) :
  session_run es initial idle_session = Some a ->
  let w := run es initial in
  match phase a with
  | PRecording =>
      exists t,
        timers (host w) = {[t]} /\
        startTime (svc w) = since a - banked a /\
        forall now,
          _duration (svc (handle (EvTick t now) w)) =
            (now - startTime (svc w)) / 1000 /\
          _duration (svc (handle (EvTick t now) w)) = recorded_ms a now / 1000
  | PPaused =>
      timers (host w) = ∅ /\
      (forall t now, handle (EvTick t now) w = w) /\
      (forall now,
         startTime (svc (handle (EvResume now) w)) =
         startTime (svc w) + (now - pausedTime (svc w)))
  | PIdle | PFinalizing =>
      timers (host w) = ∅ /\
      (forall t now, handle (EvTick t now) w = w)
  end.
Proof.
  intros Hrun w.
  pose proof (session_sim_run es initial idle_session a Hrun session_sim_initial)
    as [_ Hsim].
  fold w in Hsim.
  destruct (phase a); open_hyps.
  - split; [assumption|]. intros t now. now apply tick_inactive.
  - match goal with H : timers _ = {[?t]} |- _ => exists t end.
    split; [assumption|]. split; [lia|].
    intros now. rewrite tick_active by assumption.
    split; [reflexivity|]. unfold recorded_ms. f_equal. lia.
  - split; [assumption|].
    split; [intros t now; now apply tick_inactive|].
    intros now. now apply resume_shifts_start.
  - split; [assumption|]. intros t now. now apply tick_inactive.
Qed.

Lemma duration_counts_recording_time_witness :
  let es := [EvStart (granted 1000); EvTick 1 2000; EvPause 3500;
             EvTick 1 5000; EvResume 10000; EvTick 2 11000] in
  let a := {| phase := PRecording; since := 10000; banked := 2500 |} in
  session_run es initial idle_session = Some a /\
  exists t,
    timers (host (run es initial)) = {[t]} /\
    _duration (svc (handle (EvTick t 11600) (run es initial))) = 4.
Proof.
  intros es a.
  assert (Hrun : session_run es initial idle_session = Some a) by reflexivity.
  split; [exact Hrun|].
  pose proof (duration_counts_recording_time es a Hrun) as H.
  cbv zeta in H. cbn [phase a] in H.
  destruct H as (t & Ht & _ & Hd).
  exists t. split; [exact Ht|].
  destruct (Hd 11600) as [_ ->]. reflexivity.
Defined.

(** * Further properties of the service *)

(** ** Starting *)

Lemma grant_lookup (l : list nat) (m : gmap nat TrackState) (t : nat) :
  foldr (fun t m => <[t := live]> m) m l !! t =
  if bool_decide (t ∈ l) then Some live else m !! t.
Proof.
  induction l as [|x l IH].
  - cbn. rewrite bool_decide_eq_false_2; [reflexivity|]. apply not_elem_of_nil.
  - cbn [foldr]. destruct (decide (t = x)) as [->|Hne].
    + rewrite lookup_insert_eq.
      rewrite bool_decide_eq_true_2; [reflexivity|]. apply list_elem_of_here.
    + rewrite lookup_insert_ne by congruence. rewrite IH.
      destruct (bool_decide (t ∈ l)) eqn:El.
      * apply bool_decide_eq_true in El.
        rewrite bool_decide_eq_true_2; [reflexivity|].
        now apply list_elem_of_further.
      * apply bool_decide_eq_false in El.
        rewrite bool_decide_eq_false_2; [reflexivity|].
        intros Hin. apply elem_of_cons in Hin as [?|?]; contradiction.
Qed.

Lemma start_succeeds_spec (env : StartEnv) (w : World) :
  start_succeeds env w = true <->
  exists st,
    acquisition env = Granted st /\ videoTracks st <> [] /\
    constructor_throws env = false /\ start_throws env = false.
Proof.
  destruct w as [[mr ch st t0 p0 dt ir ip du er] [tm nt tk co dl]].
  destruct env as [[|[[|v vs] au]] [|] [|] now].
  all: split;
    [ intros H; revert H; split_cases; intros H; try discriminate H;
      eexists; repeat split; discriminate
    | intros (s & Ha & Hv & Hc & Hs); cbn in Ha, Hv, Hc, Hs;
      try discriminate; try (injection Ha as <-; now destruct Hv);
      split_cases; reflexivity ].
Qed.

(** X1. Whether a [startRecording] call succeeds is decided by the platform
    alone: the stream is granted, it has a video track, and neither the
    constructor nor [start] of the new recorder throws.  The state of the
    service has no part in it: there is no guard against a start during a
    session, and the recorder just built is always inactive. *)
Theorem start_succeeds_iff (env : StartEnv) (w : World) :
  start_succeeds env w = true <->
  exists st,
    acquisition env = Granted st /\ videoTracks st <> [] /\
    constructor_throws env = false /\ start_throws env = false.
Proof. exact (start_succeeds_spec env w). Qed.

Lemma successful_start_world (env : StartEnv) (w : World) (st : MediaStream) :
  start_succeeds env w = true ->
  acquisition env = Granted st ->
  let w' := handle (EvStart env) w in
  svc w' =
    mkService (Some {| rec_stream := st; state := recording |}) [] (Some st)
      (start_now env) 0 (Some (next_timer (host w))) true false 0 None /\
  timers (host w') = {[next_timer (host w)]} ∪ timers (host w) /\
  next_timer (host w') = S (next_timer (host w)) /\
  (forall t, t ∈ getTracks st -> tracks (host w') !! t = Some live) /\
  (forall t, t ∉ getTracks st -> tracks (host w') !! t = tracks (host w) !! t) /\
  console (host w') = console (host w) /\
  downloads (host w') = downloads (host w).
Proof.
  destruct w as [[mr ch s0 t0 p0 dt ir ip du er] [tm nt tk co dl]].
  destruct env as [[|s] ct stt now]; intros Hs Ha w'; subst w';
    cbn [acquisition] in Ha; [discriminate Ha|].
  injection Ha as ->. revert Hs.
  split_cases; intros Hs; try discriminate Hs; repeat split.
  - intros t Ht. rewrite grant_lookup. now rewrite bool_decide_eq_true_2.
  - intros t Ht. rewrite grant_lookup. now rewrite bool_decide_eq_false_2.
Qed.

(** X2. After a successful [startRecording] every field of the service is
    fixed by the call alone (the granted stream, the time of the call and
    the interval id the host hands out), whatever the service held before:
    a recorder in state recording on the granted stream, an empty chunk
    buffer, the start time, no error, and the new ticker.  The tracks of
    the granted stream are live, the new interval is added to the active
    ones, and console and downloads are as before. *)
Theorem successful_start_state (env : StartEnv) (w : World) (st : MediaStream) :
  start_succeeds env w = true ->
  acquisition env = Granted st ->
  let w' := handle (EvStart env) w in
  svc w' =
    mkService (Some {| rec_stream := st; state := recording |}) [] (Some st)
      (start_now env) 0 (Some (next_timer (host w))) true false 0 None /\
  timers (host w') = {[next_timer (host w)]} ∪ timers (host w) /\
  next_timer (host w') = S (next_timer (host w)) /\
  (forall t, t ∈ getTracks st -> tracks (host w') !! t = Some live) /\
  (forall t, t ∉ getTracks st -> tracks (host w') !! t = tracks (host w) !! t) /\
  console (host w') = console (host w) /\
  downloads (host w') = downloads (host w).
Proof. exact (successful_start_world env w st). Qed.

Lemma successful_start_state_witness :
  let w := run [EvStart (granted 0); EvData (segment Byte.x01); EvPause 700] initial in
  start_succeeds (regranted 5000) w = true /\
  acquisition (regranted 5000) = Granted second_stream /\
  svc (handle (EvStart (regranted 5000)) w) =
    mkService (Some {| rec_stream := second_stream; state := recording |}) []
      (Some second_stream) 5000 0 (Some 2%nat) true false 0 None.
Proof.
  intros w.
  assert (Hs : start_succeeds (regranted 5000) w = true) by reflexivity.
  assert (Ha : acquisition (regranted 5000) = Granted second_stream) by reflexivity.
  split; [exact Hs|]. split; [exact Ha|].
  exact (proj1 (successful_start_state (regranted 5000) w second_stream Hs Ha)).
Defined.

(** X3. A rejected acquisition writes the four signals and one console line
    and nothing else: recorder, stream, chunk buffer, time base and ticker
    of a session that is under way stay as they are, and so do the
    intervals, the tracks and the downloads. *)
Theorem rejected_start_frame (env : StartEnv) (w : World) :
  acquisition env = Rejected ->
  handle (EvStart env) w =
  mkWorld
    (mkService (mediaRecorder (svc w)) (recordedChunks (svc w)) (stream (svc w))
       (startTime (svc w)) (pausedTime (svc w)) (durationTimer (svc w))
       false false 0 (Some denial_message))
    (mkHost (timers (host w)) (next_timer (host w)) (tracks (host w))
       (console (host w) ++ [console_error "Error starting recording:"])
       (downloads (host w))).
Proof.
  destruct w as [[mr ch s0 t0 p0 dt ir ip du er] [tm nt tk co dl]].
  destruct env as [[|s] ct stt now]; intros Ha; [|discriminate Ha].
  split_cases. reflexivity.
Qed.

Lemma rejected_start_frame_witness :
  let w := run [EvStart (granted 0); EvData (segment Byte.x01)] initial in
  acquisition denied = Rejected /\
  recordedChunks (svc (handle (EvStart denied) w)) = [segment Byte.x01] /\
  recorder_state (handle (EvStart denied) w) = Some recording /\
  _isRecording (svc (handle (EvStart denied) w)) = false.
Proof.
  intros w.
  assert (Ha : acquisition denied = Rejected) by reflexivity.
  split; [exact Ha|].
  rewrite (rejected_start_frame denied w Ha).
  repeat split.
Defined.

(** ** Repeated commands and events *)

(** X5. A command repeated at once does nothing the second time: the guards of
    [pauseRecording], [resumeRecording] and [stopRecording] see the state
    the first call left.  This holds in every state. *)
Theorem repeated_command_noop (w : World) (now now' : Z) :
  handle (EvPause now') (handle (EvPause now) w) = handle (EvPause now) w /\
  handle (EvResume now') (handle (EvResume now) w) = handle (EvResume now) w /\
  handle EvStop (handle EvStop w) = handle EvStop w /\
  handle EvTrackEnded (handle EvStop w) = handle EvStop w.
Proof.
  destruct w as [[mr ch st t0 p0 dt ir ip du er] [tm nt tk co dl]].
  repeat split; split_cases; reflexivity.
Qed.

(** The world the handler of the stop event leaves, in closed form. *)
Lemma onstop_world (d : JsDate) (w : World) :
  timer_ids_ok w ->
  handle (EvRecorderStop d) w =
  mkWorld
    (mkService None [] None (startTime (svc w)) (pausedTime (svc w)) None
       false false 0 None)
    (mkHost
       (match durationTimer (svc w) with
        | Some t => timers (host w) ∖ {[t]}
        | None => timers (host w)
        end)
       (next_timer (host w))
       (match stream (svc w) with
        | Some st => stop_all (getTracks st) (tracks (host w))
        | None => tracks (host w)
        end)
       (match recordedChunks (svc w) with
        | [] => console (host w) ++ [console_warn "No recorded data available"]
        | _ :: _ => console (host w)
        end)
       (match recordedChunks (svc w) with
        | [] => downloads (host w)
        | _ :: _ =>
            downloads (host w) ++
            [{| href := newBlob (recordedChunks (svc w)) "video/webm";
                download := file_name d |}]
        end)).
Proof.
  destruct w as [[mr ch st t0 p0 dt ir ip du er] [tm nt tk co dl]].
  intros [Hn Ht].
  destruct dt as [[|t']|]; [exfalso; now apply (Ht 0%nat)| |];
    destruct ch as [|c ch];
    split_cases; try reflexivity;
    match goal with
    | E : (_ =? _)%nat = _ |- _ => cbn in E; discriminate E
    end.
Qed.

(** X6. A second stop event (a recorder left over from an earlier start also
    reports its stop to the service) offers no further download and leaves
    the service, the intervals and the tracks as the first left them; it
    only logs the warning of an empty recording. *)
Theorem second_stop_event_exports_nothing (w : World) (d d' : JsDate) :
  timer_ids_ok w ->
  let w1 := handle (EvRecorderStop d) w in
  let w2 := handle (EvRecorderStop d') w1 in
  svc w2 = svc w1 /\
  downloads (host w2) = downloads (host w1) /\
  timers (host w2) = timers (host w1) /\
  tracks (host w2) = tracks (host w1) /\
  console (host w2) =
    console (host w1) ++ [console_warn "No recorded data available"].
Proof.
  intros Hw w1 w2.
  assert (Hw1 : timer_ids_ok w1) by now apply timer_ids_ok_step.
  unfold w2. rewrite (onstop_world d' w1 Hw1).
  unfold w1. rewrite (onstop_world d w Hw).
  repeat split.
Qed.

Lemma second_stop_event_exports_nothing_witness :
  let w := run [EvStart (granted 0); EvData (segment Byte.x01); EvStop] initial in
  timer_ids_ok w /\
  List.length (downloads (host (handle (EvRecorderStop sample_date)
                     (handle (EvRecorderStop sample_date) w)))) = 1%nat.
Proof.
  intros w.
  assert (Hw : timer_ids_ok w)
    by (split; [discriminate | intros t H; discriminate H]).
  split; [exact Hw|].
  pose proof (second_stop_event_exports_nothing w sample_date sample_date Hw) as H.
  cbv zeta in H. destruct H as (_ & -> & _). reflexivity.
Defined.

(** ** Tracks *)

Lemma tracks_step (e : Event) (w : World) (t : nat) :
  t ∉ held_tracks w -> t ∉ granted_tracks [e] ->
  tracks (host (handle e w)) !! t = tracks (host w) !! t /\
  (t ∉ held_tracks (handle e w)).
Proof.
  destruct w as [[mr ch st t0 p0 dt ir ip du er] [tm nt tk co dl]].
  unfold held_tracks, granted_tracks. cbn [flat_map svc stream].
  destruct e as [[acq ct stt now]|now|now|now| |t' now|b|d| ];
    cbn [acquisition]; rewrite ?app_nil_r; intros Hh Hg;
    split_cases; cbn [stream svc]; split;
    try reflexivity; try assumption; try apply not_elem_of_nil;
    try (rewrite grant_lookup; now rewrite bool_decide_eq_false_2);
    try (rewrite stop_all_lookup; now rewrite bool_decide_eq_false_2).
Qed.

(** X7. The service touches no track but those of the stream it holds and of
    the streams it is granted: a track that is neither keeps its state
    through any sequence of events.  In particular the tracks of a stream
    that a later start replaced are never stopped. *)
Theorem foreign_tracks_untouched (es : list Event) (w : World) (t : nat) :
  t ∉ held_tracks w -> t ∉ granted_tracks es ->
  tracks (host (run es w)) !! t = tracks (host w) !! t.
Proof.
  revert w. induction es as [|e es IH]; intros w Hh Hg; [reflexivity|].
  assert (He : (t ∉ granted_tracks [e]) /\ (t ∉ granted_tracks es)).
  { unfold granted_tracks in *. cbn [flat_map] in *. rewrite app_nil_r.
    rewrite elem_of_app in Hg. tauto. }
  destruct (tracks_step e w t Hh (proj1 He)) as [Ht Hh'].
  rewrite run_cons, IH by tauto. exact Ht.
Qed.

Lemma foreign_tracks_untouched_witness :
  let w := run [EvStart (granted 0); EvStart (regranted 5000)] initial in
  let es := [EvPause 6000; EvResume 7000; EvStop; EvRecorderStop sample_date] in
  (1%nat ∉ held_tracks w) /\ (1%nat ∉ granted_tracks es) /\
  tracks (host (run es w)) !! 1%nat = Some live.
Proof.
  intros w es.
  assert (Hh : 1%nat ∉ held_tracks w).
  { intros H. vm_compute in H. apply elem_of_cons in H as [H|H]; [discriminate H|].
    apply elem_of_cons in H as [H|H]; [discriminate H|]. now apply elem_of_nil in H. }
  assert (Hg : 1%nat ∉ granted_tracks es) by apply not_elem_of_nil.
  split; [exact Hh|]. split; [exact Hg|].
  rewrite (foreign_tracks_untouched es w 1%nat Hh Hg). reflexivity.
Defined.

(** ** Starts from Idle only *)

Lemma status_inv_step (e : Event) (w : World) :
  start_only_idle w e = true -> status_inv w -> status_inv (handle e w).
Proof.
  destruct w as [[mr ch st t0 p0 dt ir ip du er] [tm nt tk co dl]].
  destruct e as [[acq ct stt now]|now|now|now| |t now|b|d| ];
    unfold start_only_idle, status_inv; intros Hg [[Hn Ht] [Hs Hr]];
    destruct dt as [[|t']|]; destruct mr as [[rs [| |]]|]; destruct ir;
    split_cases; cbn [negb] in Hg; open_hyps; close_inv.
Qed.

Lemma status_inv_initial : status_inv initial.
Proof.
  split; [apply timer_ids_ok_initial|]. split; [reflexivity|].
  split; [reflexivity|]. intros H. discriminate H.
Qed.

Lemma status_inv_run (es : list Event) :
  gated start_only_idle es initial = true -> status_inv (run es initial).
Proof.
  intros Hg.
  apply (gated_invariant start_only_idle status_inv);
    [exact status_inv_step | assumption | exact status_inv_initial].
Qed.

(** X8. When every [startRecording] call takes effect (its [await]
    resumes) in a state where [isRecording] is false,
    whatever the order of all other commands and callbacks, the published
    status tells what the recorder does: a recording recorder is published
    as Recording and has exactly one ticker, a paused recorder is
    published as Paused and has none, and a published Idle means that no
    recorder is recording or paused; without an active recorder no ticker
    runs. *)
Theorem published_status_follows_recorder (es : list Event) :
  gated start_only_idle es initial = true ->
  let w := run es initial in
  (recorder_state w = Some recording ->
     status w = Recording /\ exists t, timers (host w) = {[t]}) /\
  (recorder_state w = Some paused ->
     status w = Paused /\ timers (host w) = ∅) /\
  (status w = Idle -> recorder_active w = false) /\
  (recorder_active w = false -> timers (host w) = ∅).
Proof.
  intros Hg w. pose proof (status_inv_run es Hg) as (_ & Ht & Hr).
  fold w in Ht, Hr. unfold status, recorder_active.
  destruct (recorder_state w) as [[| |]|]; open_hyps;
    repeat split; intros; try discriminate; try congruence;
    repeat match goal with H : _ = _ |- _ => rewrite H in * end;
    try reflexivity; try discriminate.
  destruct (durationTimer (svc w)) as [t|]; [|congruence].
  exists t. reflexivity.
Qed.

Lemma published_status_follows_recorder_witness :
  let es := [EvStart (granted 0); EvResume 100; EvPause 1500; EvPause 1600;
             EvStop; EvResume 1700; EvRecorderStop sample_date;
             EvStart (regranted 9000); EvTogglePause 9500] in
  gated start_only_idle es initial = true /\
  recorder_state (run es initial) = Some paused /\
  status (run es initial) = Paused.
Proof.
  intros es.
  assert (Hg : gated start_only_idle es initial = true) by reflexivity.
  assert (Hr : recorder_state (run es initial) = Some paused) by reflexivity.
  split; [exact Hg|]. split; [exact Hr|].
  exact (proj1 (proj1 (proj2 (published_status_follows_recorder es Hg)) Hr)).
Defined.

(** X9. When every [startRecording] call takes effect (its [await]
    resumes) in a state where [isRecording] is false, [togglePause] of the
    component, which looks
    at [isPaused] only, does what the recorder needs: it pauses a recording
    recorder, resumes a paused one and changes nothing without an active
    recorder. *)
Theorem toggle_follows_recorder (es : list Event) (now : Z) :
  gated start_only_idle es initial = true ->
  let w := run es initial in
  (recorder_state w = Some recording ->
     handle (EvTogglePause now) w = handle (EvPause now) w /\
     recorder_state (handle (EvTogglePause now) w) = Some paused) /\
  (recorder_state w = Some paused ->
     handle (EvTogglePause now) w = handle (EvResume now) w /\
     recorder_state (handle (EvTogglePause now) w) = Some recording) /\
  (recorder_active w = false -> handle (EvTogglePause now) w = w).
Proof.
  intros Hg w. pose proof (status_inv_run es Hg) as (_ & _ & Hr).
  fold w in Hr. revert Hr. generalize w. clear w Hg es.
  intros [[mr ch st t0 p0 dt ir ip du er] [tm nt tk co dl]] Hr.
  destruct mr as [[rs [| |]]|]; run_methods; open_hyps; subst;
    repeat split; intros; try discriminate;
    split_cases; simplify_eq; try discriminate; reflexivity.
Qed.

Lemma toggle_follows_recorder_witness :
  let es := [EvStart (granted 0); EvTogglePause 1500] in
  gated start_only_idle es initial = true /\
  recorder_state (run es initial) = Some paused /\
  recorder_state (handle (EvTogglePause 2000) (run es initial)) = Some recording.
Proof.
  intros es.
  assert (Hg : gated start_only_idle es initial = true) by reflexivity.
  assert (Hr : recorder_state (run es initial) = Some paused) by reflexivity.
  split; [exact Hg|]. split; [exact Hr|].
  exact (proj2 (proj1 (proj2 (toggle_follows_recorder es 2000 Hg)) Hr)).
Defined.

(** ** The published duration *)

Ltac use_premises :=
  repeat match goal with
         | H : Some _ <> None -> _ |- _ =>
             let P := fresh in
             assert (P := H ltac:(discriminate)); clear H
         | H : ?a = ?a -> _ |- _ =>
             let P := fresh in assert (P := H eq_refl); clear H
         | H : _ /\ _ |- _ => destruct H
         end.

Lemma clock_inv_step (e : Event) (w : World) (last : Z) :
  start_without_ticker w e = true ->
  ticker_inv w -> clock_inv last w ->
  (forall now, event_time e = Some now -> last <= now) ->
  clock_inv (clock_after last [e]) (handle e w) /\
  (resets_chunks e = false -> _duration (svc w) <= _duration (svc (handle e w))).
Proof.
  destruct w as [[mr ch st t0 p0 dt ir ip du er] [tm nt tk co dl]].
  destruct e as [[acq ct stt now]|now|now|now| |t now|b|d| ];
    unfold start_without_ticker, clock_inv;
    cbn [clock_after event_time start_now resets_chunks];
    intros Hg [[Hn Ht] [Hs Hp]] (Hd & Hrun & Hpa & Hrec) Hnow;
    try specialize (Hnow _ eq_refl);
    (destruct dt as [[|t']|]; [exfalso; now apply (Ht 0%nat)| |]);
    destruct mr as [[rs [| |]]|];
    split_cases; cbn [negb orb] in Hg; use_premises;
    try discriminate; try congruence;
    repeat split; intros; try discriminate; try congruence;
    try (Z.div_mod_to_equations; lia);
    match goal with
    | Hb : bool_decide (_ ∈ ?tm) = true, Hs : ?tm = ∅ |- _ =>
        apply bool_decide_eq_true in Hb; rewrite Hs in Hb;
        exfalso; revert Hb; apply not_elem_of_empty
    end.
Qed.

Lemma clock_inv_run (es : list Event) : forall (w : World) (last : Z),
  gated start_without_ticker es w = true ->
  clock_monotone last es = true ->
  ticker_inv w -> clock_inv last w ->
  ticker_inv (run es w) /\ clock_inv (clock_after last es) (run es w).
Proof.
  induction es as [|e es IH]; intros w last Hg Hm Ht Hc; [split; assumption|].
  cbn [gated] in Hg. apply andb_true_iff in Hg as [Hge Hges].
  rewrite run_cons. cbn [clock_monotone clock_after] in *.
  assert (Hnow : forall now, event_time e = Some now -> last <= now).
  { intros now E. rewrite E in Hm. apply andb_true_iff in Hm as [Hm _]. lia. }
  destruct (clock_inv_step e w last Hge Ht Hc Hnow) as [Hc' _].
  cbn [clock_after] in Hc'.
  apply IH; try assumption.
  - destruct (event_time e); [|assumption].
    now apply andb_true_iff in Hm as [_ Hm].
  - now apply ticker_inv_step.
Qed.

Lemma clock_inv_initial (last : Z) : clock_inv last initial.
Proof.
  unfold clock_inv. cbn. repeat split; intros; try congruence; try lia;
    discriminate.
Qed.

(** X10. With a clock that does not go back, along every sequence of events in
    which no start succeeds while the service holds a ticker handle: the
    published duration is never negative, and no event other than a start
    or the completion of a stop makes it smaller. *)
Theorem duration_never_decreases (es : list Event) (t0 : Z) (e : Event) :
  gated start_without_ticker es initial = true ->
  clock_monotone t0 es = true ->
  let w := run es initial in
  0 <= _duration (svc w) /\
  (resets_chunks e = false ->
   (forall now, event_time e = Some now -> clock_after t0 es <= now) ->
   _duration (svc w) <= _duration (svc (handle e w))).
Proof.
  intros Hg Hm w.
  destruct (clock_inv_run es initial t0 Hg Hm ticker_inv_initial
              (clock_inv_initial t0)) as [Ht Hc].
  fold w in Ht, Hc.
  split; [apply Hc|].
  intros Hr Hnow.
  assert (He : start_without_ticker w e = true)
    by (destruct e; try reflexivity; discriminate Hr).
  exact (proj2 (clock_inv_step e w _ He Ht Hc Hnow) Hr).
Qed.

Lemma duration_never_decreases_witness :
  let es := [EvStart (granted 1000); EvTick 1 3400; EvPause 3500;
             EvResume 10000] in
  gated start_without_ticker es initial = true /\
  clock_monotone 0 es = true /\
  _duration (svc (run es initial)) = 2 /\
  2 <= _duration (svc (handle (EvTick 2 10100) (run es initial))).
Proof.
  intros es.
  assert (Hg : gated start_without_ticker es initial = true) by reflexivity.
  assert (Hm : clock_monotone 0 es = true) by reflexivity.
  split; [exact Hg|]. split; [exact Hm|]. split; [reflexivity|].
  pose proof (duration_never_decreases es 0 (EvTick 2 10100) Hg Hm) as H.
  cbv zeta in H. destruct H as [_ H].
  apply H; [reflexivity|].
  intros now E. injection E as <-. vm_compute. discriminate.
Defined.


(** ** Files offered *)

Lemma newBlob_has_bytes (ch : list Blob) (type : string) :
  (List.length ch =? 0)%nat = false ->
  List.Forall (fun b => nonempty b = true) ch ->
  (0 < size (newBlob ch type))%nat.
Proof.
  destruct ch as [|c ch]; [discriminate|]. intros _ Hc.
  apply Forall_inv in Hc. unfold nonempty in Hc. apply Nat.ltb_lt in Hc.
  unfold size, blob_size in *.
  cbn [newBlob blob_bytes List.map List.concat].
  rewrite length_app. lia.
Qed.

Lemma export_inv_step (e : Event) (w : World) :
  export_inv w -> export_inv (handle e w).
Proof.
  destruct w as [[mr ch st t0 p0 dt ir ip du er] [tm nt tk co dl]].
  unfold export_inv.
  destruct e as [[acq ct stt now]|now|now|now| |t now|b|d| ];
    intros [Hc Hd]; split_cases; split;
    try assumption; try apply List.Forall_nil;
    (apply Forall_app; split; [assumption|]); constructor;
    try apply List.Forall_nil; try assumption.
  all: split; [reflexivity|]; split; [|now exists d].
  all: now apply newBlob_has_bytes.
Qed.

(** X12. In every state the service can reach, by any sequence of events, each
    file it has offered for download has the type [video/webm], at least
    one byte, and a name of the form [file_name] builds; and every chunk
    in the buffer has at least one byte. *)
Theorem offered_files_have_content (es : list Event) :
  let w := run es initial in
  List.Forall
    (fun f => blob_type (href f) = "video/webm"%string /\
              (0 < size (href f))%nat /\
              exists d, download f = file_name d)
    (downloads (host w)) /\
  List.Forall (fun b => (0 < size b)%nat) (recordedChunks (svc w)).
Proof.
  intros w.
  assert (H : export_inv w).
  { unfold w. generalize initial, (conj (List.Forall_nil _) (List.Forall_nil _)
                                    : export_inv initial).
    induction es as [|e es IH]; intros w0 Hw0; [assumption|].
    rewrite run_cons. apply IH. now apply export_inv_step. }
  destruct H as [Hc Hd]. split; [assumption|].
  eapply List.Forall_impl; [|exact Hc].
  intros b Hb. now apply Nat.ltb_lt.
Qed.

(** ** Pause and resume *)

(** X11. A pause at [p] followed by a resume at [r], from a state whose
    recorder is recording: the recorder is recording again, the time base
    is moved forward by [r - p], a fresh ticker replaces the one cleared,
    and the chunk buffer, the stream, its tracks, the published duration
    and error, the console and the downloads are as they were. *)
Theorem pause_resume_round_trip (w : World) (p r : Z) :
  timer_ids_ok w ->
  recorder_state w = Some recording ->
  let w' := handle (EvResume r) (handle (EvPause p) w) in
  mediaRecorder (svc w') = mediaRecorder (svc w) /\
  startTime (svc w') = startTime (svc w) + (r - p) /\
  pausedTime (svc w') = p /\
  durationTimer (svc w') = Some (next_timer (host w)) /\
  timers (host w') =
    {[next_timer (host w)]} ∪
    (match durationTimer (svc w) with
     | Some t => timers (host w) ∖ {[t]}
     | None => timers (host w)
     end) /\
  recordedChunks (svc w') = recordedChunks (svc w) /\
  stream (svc w') = stream (svc w) /\
  _isRecording (svc w') = _isRecording (svc w) /\
  _isPaused (svc w') = false /\
  _duration (svc w') = _duration (svc w) /\
  _error (svc w') = _error (svc w) /\
  tracks (host w') = tracks (host w) /\
  console (host w') = console (host w) /\
  downloads (host w') = downloads (host w).
Proof.
  destruct w as [[mr ch st t0 p0 dt ir ip du er] [tm nt tk co dl]].
  intros [Hn Ht] Hr w'. subst w'.
  destruct dt as [[|t']|]; [exfalso; now apply (Ht 0%nat)| |];
    (destruct mr as [[rs [| |]]|]; try discriminate Hr);
    repeat split; split_cases; reflexivity.
Qed.

Lemma pause_resume_round_trip_witness :
  let w := run [EvStart (granted 1000); EvData (segment Byte.x01)] initial in
  timer_ids_ok w /\ recorder_state w = Some recording /\
  startTime (svc (handle (EvResume 9000) (handle (EvPause 4000) w))) =
    startTime (svc w) + (9000 - 4000).
Proof.
  intros w.
  assert (Hw : timer_ids_ok w)
    by (split; [discriminate | intros t H; injection H as <-; discriminate]).
  assert (Hr : recorder_state w = Some recording) by reflexivity.
  split; [exact Hw|]. split; [exact Hr|].
  exact (proj1 (proj2 (pause_resume_round_trip w 4000 9000 Hw Hr))).
Defined.

(** ** A start that fails after the grant *)

(** X4. When the stream is granted and the call fails all the same, the
    [stream] field holds the granted stream and its tracks are live, and
    the ticker is as it was.  If the constructor threw, recorder, chunk
    buffer and time base are as they were; if the recorder was built (the
    stream has no video track, or [start] threw), the service holds the
    new inactive recorder and has already emptied the chunk buffer and
    reset the time base. *)
Theorem failed_start_after_grant (env : StartEnv) (w : World) (st : MediaStream) :
  acquisition env = Granted st ->
  start_succeeds env w = false ->
  let w' := handle (EvStart env) w in
  stream (svc w') = Some st /\
  (forall t, t ∈ getTracks st -> tracks (host w') !! t = Some live) /\
  durationTimer (svc w') = durationTimer (svc w) /\
  timers (host w') = timers (host w) /\
  (constructor_throws env = true ->
     mediaRecorder (svc w') = mediaRecorder (svc w) /\
     recordedChunks (svc w') = recordedChunks (svc w) /\
     startTime (svc w') = startTime (svc w) /\
     pausedTime (svc w') = pausedTime (svc w)) /\
  (constructor_throws env = false ->
     mediaRecorder (svc w') = Some {| rec_stream := st; state := inactive |} /\
     recordedChunks (svc w') = [] /\
     startTime (svc w') = start_now env /\
     pausedTime (svc w') = 0).
Proof.
  destruct w as [[mr ch s0 t0 p0 dt ir ip du er] [tm nt tk co dl]].
  destruct env as [[|s] ct stt now]; intros Ha Hs w'; subst w';
    cbn [acquisition] in Ha; [discriminate Ha|].
  injection Ha as ->. revert Hs.
  split_cases; intros Hs; try discriminate Hs; repeat split;
    try (intros; discriminate);
    intros t Ht; rewrite grant_lookup; now rewrite bool_decide_eq_true_2.
Qed.

Lemma failed_start_after_grant_witness :
  let w := run [EvStart (granted 0); EvData (segment Byte.x01)] initial in
  let env := {| acquisition := Granted second_stream; constructor_throws := false;
                start_throws := true; start_now := 700 |} in
  acquisition env = Granted second_stream /\
  start_succeeds env w = false /\
  recordedChunks (svc w) = [segment Byte.x01] /\
  recordedChunks (svc (handle (EvStart env) w)) = [].
Proof.
  intros w env.
  assert (Ha : acquisition env = Granted second_stream) by reflexivity.
  assert (Hs : start_succeeds env w = false) by reflexivity.
  split; [exact Ha|]. split; [exact Hs|]. split; [reflexivity|].
  pose proof (failed_start_after_grant env w second_stream Ha Hs) as H.
  cbv zeta in H. destruct H as (_ & _ & _ & _ & _ & H).
  exact (proj1 (proj2 (H eq_refl))).
Defined.

(** ** Between a start and the stop event *)

Lemma frame_step (e : Event) (w : World) :
  resets_chunks e = false ->
  _isRecording (svc (handle e w)) = _isRecording (svc w) /\
  _error (svc (handle e w)) = _error (svc w) /\
  stream (svc (handle e w)) = stream (svc w) /\
  tracks (host (handle e w)) = tracks (host w) /\
  downloads (host (handle e w)) = downloads (host w) /\
  console (host (handle e w)) = console (host w).
Proof.
  destruct w as [[mr ch st t0 p0 dt ir ip du er] [tm nt tk co dl]].
  destruct e as [env|now|now|now| |t now|b|d| ]; intros H; try discriminate H;
    repeat split; split_cases; reflexivity.
Qed.

Lemma frame_run (es : list Event) (w : World) :
  forallb (fun e => negb (resets_chunks e)) es = true ->
  _isRecording (svc (run es w)) = _isRecording (svc w) /\
  _error (svc (run es w)) = _error (svc w) /\
  stream (svc (run es w)) = stream (svc w) /\
  tracks (host (run es w)) = tracks (host w) /\
  downloads (host (run es w)) = downloads (host w) /\
  console (host (run es w)) = console (host w).
Proof.
  revert w. induction es as [|e es IH]; intros w H; [repeat split|].
  cbn [forallb] in H. apply andb_true_iff in H as [He Hes].
  apply negb_true_iff in He.
  rewrite run_cons.
  destruct (IH (handle e w) Hes) as (-> & -> & -> & -> & -> & ->).
  now apply frame_step.
Qed.



(** X14. A whole session.  From any state, a successful start, then any
    commands and callbacks other than a further start, then the stop
    event: the only download added holds the segments of non-zero size
    delivered in between, in order of delivery, under the name of the time
    of the stop event; when no such segment was delivered, no download is
    added. *)
Theorem session_exports_delivered_segments
  (env : StartEnv) (es : list Event) (d : JsDate) (w : World) :
  start_succeeds env w = true ->
  forallb (fun e => negb (resets_chunks e)) es = true ->
  let kept := List.filter nonempty (segments es) in
  downloads (host (run (EvStart env :: es ++ [EvRecorderStop d]) w)) =
  downloads (host w) ++
  match kept with
  | [] => []
  | _ :: _ => [{| href := newBlob kept "video/webm"; download := file_name d |}]
  end.
Proof.
  intros Hs Hes kept.
  rewrite run_cons, run_app. cbn [run fold_left].
  set (w1 := handle (EvStart env) w).
  set (w2 := run es w1).
  assert (Hch : recordedChunks (svc w2) = kept).
  { unfold w2. rewrite chunks_run by assumption.
    assert (Hst : exists st, acquisition env = Granted st).
    { apply (start_succeeds_spec env w) in Hs as (st & Ha & _). now exists st. }
    destruct Hst as (st & Ha).
    destruct (successful_start_world env w st Hs Ha) as (Hsvc & _).
    fold w1 in Hsvc. rewrite Hsvc. reflexivity. }
  assert (Hdl : downloads (host w2) = downloads (host w)).
  { unfold w2.
    rewrite (proj1 (proj2 (proj2 (proj2 (proj2 (frame_run es w1 Hes)))))).
    assert (Hst : exists st, acquisition env = Granted st).
    { apply (start_succeeds_spec env w) in Hs as (st & Ha & _). now exists st. }
    destruct Hst as (st & Ha).
    destruct (successful_start_world env w st Hs Ha) as (_ & _ & _ & _ & _ & _ & Hd).
    exact Hd. }
  pose proof (onstop_effects d w2) as (He & Hne & _).
  rewrite Hch, Hdl in He, Hne.
  destruct kept as [|k ks] eqn:E.
  - destruct (He eq_refl) as [-> _]. now rewrite app_nil_r.
  - destruct Hne as [-> _]; [discriminate|]. reflexivity.
Qed.

Lemma session_exports_delivered_segments_witness :
  let es := [EvData (segment Byte.x01); EvPause 1500;
             EvData {| blob_bytes := []; blob_type := "video/webm" |};
             EvTogglePause 2500; EvData (segment Byte.x02); EvTrackEnded;
             EvData (segment Byte.x03)] in
  start_succeeds (granted 0) initial = true /\
  forallb (fun e => negb (resets_chunks e)) es = true /\
  List.map (fun f => blob_bytes (href f))
    (downloads (host (run (EvStart (granted 0) :: es ++
                           [EvRecorderStop sample_date]) initial))) =
  [[Byte.x01; Byte.x02; Byte.x03]].
Proof.
  intros es.
  assert (Hs : start_succeeds (granted 0) initial = true) by reflexivity.
  assert (He : forallb (fun e => negb (resets_chunks e)) es = true) by reflexivity.
  split; [exact Hs|]. split; [exact He|].
  rewrite (session_exports_delivered_segments (granted 0) es sample_date initial Hs He).
  reflexivity.
Defined.

(** ** Reading [formatDuration] back *)

Lemma read_fields_last (s : string) : forall v x,
  numeral_from v s = Some x -> read_fields v s = Some [x].
Proof.
  induction s as [|c r IH]; intros v x H.
  - cbn in *. congruence.
  - cbn [numeral_from read_fields] in *.
    destruct (Ascii.eqb_spec c ":"%char) as [->|_]; [discriminate H|].
    destruct (digit_of c); [now apply IH | discriminate H].
Qed.

Lemma read_fields_colon (s rest : string) : forall v x,
  numeral_from v s = Some x ->
  read_fields v (s +++ String ":"%char rest) =
  option_map (cons x) (read_fields 0 rest).
Proof.
  induction s as [|c r IH]; intros v x H.
  - cbn in *. injection H as ->. reflexivity.
  - change (String c r +++ String ":"%char rest)
      with (String c (r +++ String ":"%char rest)).
    cbn [numeral_from read_fields] in *.
    destruct (Ascii.eqb_spec c ":"%char) as [->|_]; [discriminate H|].
    destruct (digit_of c); [now apply IH | discriminate H].
Qed.

Lemma two_digits_from n : 0 <= n < 100 -> numeral_from 0 (two_digits n) = Some n.
Proof. intros H. exact (two_digits_value n H). Qed.

Lemma pad2_from h : 0 <= h -> numeral_from 0 (pad 2 h) = Some h.
Proof.
  intros H. destruct (Z_lt_le_dec h 10) as [Hs|Hb].
  - rewrite pad2_two_digits by lia. apply two_digits_from. lia.
  - rewrite pad2_wide by assumption.
    pose proof (nat_digits_value h H) as Hv. unfold numeral_value in Hv.
    destruct (nat_digits h); [discriminate Hv | exact Hv].
Qed.

(** Reading back what [formatDuration] printed for a second count
    [s >= 0] gives [s]. *)
Lemma parse_formatDuration (s : Z) :
  0 <= s -> parseDuration (formatDuration s) = Some s.
Proof.
  intros Hs.
  destruct (seconds_fields s Hs) as (Hh & Hm & Hc & Hsum).
  unfold formatDuration, parseDuration.
  fold (pad 2 (s / 3600)) (pad 2 (Z.rem s 3600 / 60)) (pad 2 (Z.rem s 60)).
  assert (Hcolon : forall x : string, ":" +++ x = String ":"%char x)
    by reflexivity.
  rewrite !Hcolon.
  destruct (Z.ltb_spec 0 (s / 3600)) as [Hpos|Hz].
  - rewrite (read_fields_colon _ _ 0 (s / 3600)) by (apply pad2_from; lia).
    rewrite (read_fields_colon _ _ 0 (Z.rem s 3600 / 60)) by (apply pad2_from; lia).
    rewrite (read_fields_last _ 0 (Z.rem s 60)) by (apply pad2_from; lia).
    cbn [option_map]. f_equal. lia.
  - rewrite (read_fields_colon _ _ 0 (Z.rem s 3600 / 60)) by (apply pad2_from; lia).
    rewrite (read_fields_last _ 0 (Z.rem s 60)) by (apply pad2_from; lia).
    cbn [option_map]. f_equal. lia.
Qed.

(** X15. Two different second counts that are not negative and safe
    integers (at most [MAX_SAFE_INTEGER]) are never shown as the same
    string: what [formatDuration] prints for them can be read back. *)
Theorem formatDuration_injective (s1 s2 : Z) :
  0 <= s1 <= MAX_SAFE_INTEGER -> 0 <= s2 <= MAX_SAFE_INTEGER ->
  formatDuration s1 = formatDuration s2 -> s1 = s2.
Proof.
  intros [H1 _] [H2 _] E.
  pose proof (parse_formatDuration s1 H1) as P1.
  pose proof (parse_formatDuration s2 H2) as P2.
  rewrite E in P1. congruence.
Qed.

Lemma formatDuration_injective_witness :
  0 <= 3661 <= MAX_SAFE_INTEGER /\
  formatDuration 3661 = "01:01:01"%string /\
  parseDuration "01:01:01" = Some 3661 /\
  (forall s, 0 <= s <= MAX_SAFE_INTEGER ->
             formatDuration s = "01:01:01"%string -> s = 3661).
Proof.
  assert (H : 0 <= 3661 <= MAX_SAFE_INTEGER)
    by (vm_compute; split; discriminate).
  split; [exact H|]. split; [reflexivity|]. split; [reflexivity|].
  intros s Hs E. symmetry.
  exact (formatDuration_injective 3661 s H Hs (eq_sym E)).
Defined.
